(** * Reservation system: hotels, customers and reservations over flat files

    A shallow embedding of [reservation_system.py].  The three JSON files
    are three lists of records held in a [World]; every method is a
    function that takes the receiver ([self]) and the world and returns
    the receiver and the world as the call leaves them.

    Conventions of the embedding:
    - Python integers are [Z]; strings are [string]; an optional keyword
      argument is an [option], [None] being the Python default.
    - [str(uuid.uuid4())] is drawn from a counter kept in the world and
      printed in decimal, so that two draws never return the same string.
    - [datetime.now()] is an input of [create_reservation].
    - Messages printed on the console are advisory and are not modelled;
      reads and writes of the data files succeed.
    - Two record fields cannot share a name at top level, so the [name] of
      a customer is [customer_name] and the [customer_id] and [hotel_id] of
      a reservation are [reservation_customer_id], [reservation_hotel_id].
      Where a keyword argument has the name of an attribute, the argument
      is written with a prime. *)

From stdpp Require Import base strings list pretty.

Local Open Scope Z_scope.

(** ** Data model *)

Record Hotel := mkHotel {
  hotel_id : string;
  name : string;
  location : string;
  total_rooms : Z;
  available_rooms : Z
}.

Record Customer := mkCustomer {
  customer_id : string;
  customer_name : string;
  email : string;
  phone : string
}.

Record Reservation := mkReservation {
  reservation_id : string;
  reservation_customer_id : string;
  reservation_hotel_id : string;
  reservation_date : string
}.

(** Attribute assignment, [self.attr = v]. *)
Definition set_name (v : string) (self : Hotel) : Hotel :=
  mkHotel (hotel_id self) v (location self) (total_rooms self)
          (available_rooms self).
Definition set_location (v : string) (self : Hotel) : Hotel :=
  mkHotel (hotel_id self) (name self) v (total_rooms self)
          (available_rooms self).
Definition set_total_rooms (v : Z) (self : Hotel) : Hotel :=
  mkHotel (hotel_id self) (name self) (location self) v
          (available_rooms self).
Definition set_available_rooms (v : Z) (self : Hotel) : Hotel :=
  mkHotel (hotel_id self) (name self) (location self) (total_rooms self) v.

Definition set_customer_name (v : string) (self : Customer) : Customer :=
  mkCustomer (customer_id self) v (email self) (phone self).
Definition set_email (v : string) (self : Customer) : Customer :=
  mkCustomer (customer_id self) (customer_name self) v (phone self).
Definition set_phone (v : string) (self : Customer) : Customer :=
  mkCustomer (customer_id self) (customer_name self) (email self) v.

(** [if arg: self.attr = arg] for a keyword argument that is [None] or a
    string: the assignment runs for a non-empty string only. *)
Definition if_truthy {A} (arg : option string) (assign : string → A → A)
    (self : A) : A :=
  match arg with
  | Some v => if bool_decide (v ≠ "") then assign v self else self
  | None => self
  end.

(** ** Persistence layer *)

Record World := mkWorld {
  hotels_json : list Hotel;             (* data/hotels.json *)
  customers_json : list Customer;       (* data/customers.json *)
  reservations_json : list Reservation; (* data/reservations.json *)
  uuid_drawn : nat                      (* calls of uuid.uuid4 so far *)
}.

(** A file path selects one of the three collections. *)
Record File (A : Type) := mkFile {
  read_file : World → list A;
  write_file : list A → World → World
}.
Arguments read_file {A} _ _.
Arguments write_file {A} _ _ _.

Definition HOTELS_FILE : File Hotel :=
  mkFile Hotel hotels_json
    (λ data w, mkWorld data (customers_json w) (reservations_json w)
                       (uuid_drawn w)).
Definition CUSTOMERS_FILE : File Customer :=
  mkFile Customer customers_json
    (λ data w, mkWorld (hotels_json w) data (reservations_json w)
                       (uuid_drawn w)).
Definition RESERVATIONS_FILE : File Reservation :=
  mkFile Reservation reservations_json
    (λ data w, mkWorld (hotels_json w) (customers_json w) data
                       (uuid_drawn w)).

(** [ensure_data_files()] in an empty directory: the three files hold the
    empty list, and [uuid4] has not been called. *)
Definition fresh_data_files : World := mkWorld [] [] [] 0%nat.

Definition load_data {A} (file_path : File A) (w : World) : list A :=
  read_file file_path w.

Definition save_data {A} (file_path : File A) (data : list A) (w : World)
  : World :=
  write_file file_path data w.

(** [str(uuid.uuid4())] *)
Definition uuid4 (w : World) : string * World :=
  (pretty (uuid_drawn w),
   mkWorld (hotels_json w) (customers_json w) (reservations_json w)
           (S (uuid_drawn w))).

(** The loop
    [for h in data: if h.get(key) == ident: <update h>; break]:
    the first record that matches is updated, the others are kept. *)
Fixpoint update_first {A} (matches : A → bool) (update : A → A)
    (data : list A) : list A :=
  match data with
  | [] => []
  | h :: rest =>
      if matches h then update h :: rest
      else h :: update_first matches update rest
  end.

(** The loop [for h in data: if h.get(key) == ident: return h]. *)
Fixpoint first_match {A} (matches : A → bool) (data : list A) : option A :=
  match data with
  | [] => None
  | h :: rest => if matches h then Some h else first_match matches rest
  end.

(** ** Hotel *)

Module Hotel.

Definition create_hotel (name location : string) (total_rooms : Z)
    (w : World) : Hotel * World :=
  let '(hotel_id, w) := uuid4 w in
  let new_hotel := mkHotel hotel_id name location total_rooms total_rooms in
  let hotels := load_data HOTELS_FILE w in
  let hotels := hotels ++ [new_hotel] in
  (new_hotel, save_data HOTELS_FILE hotels w).

Definition delete_hotel (hotel_id' : string) (w : World) : World :=
  let hotels := load_data HOTELS_FILE w in
  let updated_hotels := filter (λ h, hotel_id h ≠ hotel_id') hotels in
  if decide (length updated_hotels = length hotels) then w
  else save_data HOTELS_FILE updated_hotels w.

Definition get_hotel (hotel_id' : string) (w : World) : option Hotel :=
  let hotels := load_data HOTELS_FILE w in
  first_match (λ h, bool_decide (hotel_id h = hotel_id')) hotels.

Definition modify_info (self : Hotel) (name' location' : option string)
    (total_rooms' : option Z) (w : World) : Hotel * World :=
  let self := if_truthy name' set_name self in
  let self := if_truthy location' set_location self in
  let self :=
    match total_rooms' with
    | Some total_rooms' =>
        let difference := total_rooms' - total_rooms self in
        let self := set_total_rooms total_rooms' self in
        let self :=
          set_available_rooms (available_rooms self + difference) self in
        if decide (available_rooms self < 0)
        then set_available_rooms 0 self
        else self
    | None => self
    end in
  let hotels := load_data HOTELS_FILE w in
  (* h.update(self.__dict__) overwrites every field of the record *)
  let hotels :=
    update_first (λ h, bool_decide (hotel_id h = hotel_id self))
                 (λ _, self) hotels in
  (self, save_data HOTELS_FILE hotels w).

Definition reserve_room (self : Hotel) (w : World) : bool * Hotel * World :=
  if decide (available_rooms self > 0) then
    let self := set_available_rooms (available_rooms self - 1) self in
    let hotels := load_data HOTELS_FILE w in
    let hotels :=
      update_first (λ h, bool_decide (hotel_id h = hotel_id self))
                   (set_available_rooms (available_rooms self)) hotels in
    (true, self, save_data HOTELS_FILE hotels w)
  else (false, self, w).

Definition cancel_room (self : Hotel) (w : World) : bool * Hotel * World :=
  if decide (available_rooms self < total_rooms self) then
    let self := set_available_rooms (available_rooms self + 1) self in
    let hotels := load_data HOTELS_FILE w in
    let hotels :=
      update_first (λ h, bool_decide (hotel_id h = hotel_id self))
                   (set_available_rooms (available_rooms self)) hotels in
    (true, self, save_data HOTELS_FILE hotels w)
  else (false, self, w).

End Hotel.

(** ** Customer *)

Module Customer.

Definition create_customer (name email phone : string) (w : World)
    : Customer * World :=
  let '(customer_id, w) := uuid4 w in
  let new_customer := mkCustomer customer_id name email phone in
  let customers := load_data CUSTOMERS_FILE w in
  let customers := customers ++ [new_customer] in
  (new_customer, save_data CUSTOMERS_FILE customers w).

Definition delete_customer (customer_id' : string) (w : World) : World :=
  let customers := load_data CUSTOMERS_FILE w in
  let updated_customers :=
    filter (λ c, customer_id c ≠ customer_id') customers in
  if decide (length updated_customers = length customers) then w
  else save_data CUSTOMERS_FILE updated_customers w.

Definition get_customer (customer_id' : string) (w : World)
    : option Customer :=
  let customers := load_data CUSTOMERS_FILE w in
  first_match (λ c, bool_decide (customer_id c = customer_id')) customers.

Definition modify_info (self : Customer) (name' email' phone' : option string)
    (w : World) : Customer * World :=
  let self := if_truthy name' set_customer_name self in
  let self := if_truthy email' set_email self in
  let self := if_truthy phone' set_phone self in
  let customers := load_data CUSTOMERS_FILE w in
  let customers :=
    update_first (λ c, bool_decide (customer_id c = customer_id self))
                 (λ _, self) customers in
  (self, save_data CUSTOMERS_FILE customers w).

End Customer.

(** ** Reservation *)

(** What a caller can pass where an instance is expected. *)
Inductive pyobj :=
  | PyNone
  | PyStr (s : string)
  | PyInt (z : Z)
  | PyHotel (h : Hotel)
  | PyCustomer (c : Customer)
  | PyReservation (r : Reservation).

Module Reservation.

(** The second component is [hotel_instance] as the call leaves it. *)
Definition create_reservation (customer_instance hotel_instance : pyobj)
    (now : string) (w : World) : option Reservation * pyobj * World :=
  match customer_instance, hotel_instance with
  | PyCustomer customer, PyHotel hotel =>
      let '(reserved, hotel, w) := Hotel.reserve_room hotel w in
      if negb reserved then (None, PyHotel hotel, w)
      else
        let '(reservation_id, w) := uuid4 w in
        let reservation_date := now in
        let new_reservation :=
          mkReservation reservation_id (customer_id customer)
                        (hotel_id hotel) reservation_date in
        let reservations := load_data RESERVATIONS_FILE w in
        let reservations := reservations ++ [new_reservation] in
        (Some new_reservation, PyHotel hotel,
         save_data RESERVATIONS_FILE reservations w)
  | _, _ => (None, hotel_instance, w)
  end.

Definition cancel_reservation (reservation_id' : string) (w : World)
    : bool * World :=
  let reservations := load_data RESERVATIONS_FILE w in
  let reservation_to_cancel :=
    first_match (λ r, bool_decide (reservation_id r = reservation_id'))
                reservations in
  match reservation_to_cancel with
  | None => (false, w)
  | Some r =>
      let hotel_instance := Hotel.get_hotel (reservation_hotel_id r) w in
      let w :=
        match hotel_instance with
        | Some hotel => (Hotel.cancel_room hotel w).2
        | None => w
        end in
      let updated_reservations :=
        filter (λ r, reservation_id r ≠ reservation_id') reservations in
      (true, save_data RESERVATIONS_FILE updated_reservations w)
  end.

End Reservation.

(** ** Caller scripts used by the properties *)

(** [self.reserve_room(); self.cancel_room()] on one instance. *)
Definition reserve_then_cancel (self : Hotel) (w : World) : Hotel * World :=
  let '(_, self, w) := Hotel.reserve_room self w in
  let '(_, self, w) := Hotel.cancel_room self w in
  (self, w).

(** [isinstance(o, Customer)] and [isinstance(o, Hotel)]. *)
Definition isinstance_Customer (o : pyobj) : bool :=
  match o with PyCustomer _ => true | _ => false end.
Definition isinstance_Hotel (o : pyobj) : bool :=
  match o with PyHotel _ => true | _ => false end.

(** ** Programs: sequences of calls on live instances

    A caller holds [Hotel] and [Customer] instances by reference and calls
    the methods one after the other.  A [Session] keeps the instances in
    the order they were bound; a call names an instance by its position.
    A position that names no instance stands for [None]. *)

Record Session := mkSession {
  world : World;
  hotel_objects : list Hotel;
  customer_objects : list Customer
}.

Inductive argument :=
  | ArgStr (s : string)
  | ArgHotel (ref : nat)
  | ArgCustomer (ref : nat).

Inductive call :=
  | CreateHotel (name location : string) (total_rooms : Z)
  | DeleteHotel (hotel_id' : string)
  | GetHotel (hotel_id' : string)
  | HotelModifyInfo (self : nat) (name' location' : option string)
                    (total_rooms' : option Z)
  | ReserveRoom (self : nat)
  | CancelRoom (self : nat)
  | CreateCustomer (name email phone : string)
  | DeleteCustomer (customer_id' : string)
  | GetCustomer (customer_id' : string)
  | CustomerModifyInfo (self : nat) (name' email' phone' : option string)
  | CreateReservation (customer_instance hotel_instance : argument)
                      (now : string)
  | CancelReservation (reservation_id' : string).

Definition resolve (s : Session) (a : argument) : pyobj :=
  match a with
  | ArgStr v => PyStr v
  | ArgHotel ref => from_option PyHotel PyNone (hotel_objects s !! ref)
  | ArgCustomer ref => from_option PyCustomer PyNone (customer_objects s !! ref)
  end.

(** The hotel instances after a call that may have mutated the object
    passed as [a]. *)
Definition write_back (a : argument) (o : pyobj) (objects : list Hotel)
    : list Hotel :=
  match a, o with
  | ArgHotel ref, PyHotel h => <[ref := h]> objects
  | _, _ => objects
  end.

Definition step (s : Session) (c : call) : Session :=
  match c with
  | CreateHotel name location total_rooms =>
      let '(hotel, w) :=
        Hotel.create_hotel name location total_rooms (world s) in
      mkSession w (hotel_objects s ++ [hotel]) (customer_objects s)
  | DeleteHotel hotel_id' =>
      mkSession (Hotel.delete_hotel hotel_id' (world s))
                (hotel_objects s) (customer_objects s)
  | GetHotel hotel_id' =>
      match Hotel.get_hotel hotel_id' (world s) with
      | Some hotel =>
          mkSession (world s) (hotel_objects s ++ [hotel])
                    (customer_objects s)
      | None => s
      end
  | HotelModifyInfo self name' location' total_rooms' =>
      match hotel_objects s !! self with
      | Some hotel =>
          let '(hotel, w) :=
            Hotel.modify_info hotel name' location' total_rooms' (world s) in
          mkSession w (<[self := hotel]> (hotel_objects s))
                    (customer_objects s)
      | None => s
      end
  | ReserveRoom self =>
      match hotel_objects s !! self with
      | Some hotel =>
          let '(_, hotel, w) := Hotel.reserve_room hotel (world s) in
          mkSession w (<[self := hotel]> (hotel_objects s))
                    (customer_objects s)
      | None => s
      end
  | CancelRoom self =>
      match hotel_objects s !! self with
      | Some hotel =>
          let '(_, hotel, w) := Hotel.cancel_room hotel (world s) in
          mkSession w (<[self := hotel]> (hotel_objects s))
                    (customer_objects s)
      | None => s
      end
  | CreateCustomer name email phone =>
      let '(customer, w) :=
        Customer.create_customer name email phone (world s) in
      mkSession w (hotel_objects s) (customer_objects s ++ [customer])
  | DeleteCustomer customer_id' =>
      mkSession (Customer.delete_customer customer_id' (world s))
                (hotel_objects s) (customer_objects s)
  | GetCustomer customer_id' =>
      match Customer.get_customer customer_id' (world s) with
      | Some customer =>
          mkSession (world s) (hotel_objects s)
                    (customer_objects s ++ [customer])
      | None => s
      end
  | CustomerModifyInfo self name' email' phone' =>
      match customer_objects s !! self with
      | Some customer =>
          let '(customer, w) :=
            Customer.modify_info customer name' email' phone' (world s) in
          mkSession w (hotel_objects s)
                    (<[self := customer]> (customer_objects s))
      | None => s
      end
  | CreateReservation customer_instance hotel_instance now =>
      let '(_, hotel_after, w) :=
        Reservation.create_reservation (resolve s customer_instance)
                                       (resolve s hotel_instance) now
                                       (world s) in
      mkSession w (write_back hotel_instance hotel_after (hotel_objects s))
                (customer_objects s)
  | CancelReservation reservation_id' =>
      mkSession (Reservation.cancel_reservation reservation_id' (world s)).2
                (hotel_objects s) (customer_objects s)
  end.

Definition run (calls : list call) (s : Session) : Session :=
  foldl step s calls.

(** The session of a program that starts on an empty data directory. *)
Definition start : Session := mkSession fresh_data_files [] [].

(** The invariant of the data model, on one hotel and on every hotel of a
    session, instances and stored records alike. *)
Definition rooms_in_range (h : Hotel) : Prop :=
  0 ≤ available_rooms h ≤ total_rooms h.

Definition all_rooms_in_range (s : Session) : Prop :=
  Forall rooms_in_range (hotel_objects s)
  ∧ Forall rooms_in_range (hotels_json (world s)).

(** The operations of the room-accounting claim. *)
Definition room_operation (c : call) : bool :=
  match c with
  | CreateHotel _ _ _ | HotelModifyInfo _ _ _ _ | CustomerModifyInfo _ _ _ _
  | ReserveRoom _ | CancelRoom _
  | CreateReservation _ _ _ | CancelReservation _ => true
  | _ => false
  end.

(** Calls that bind no second instance of a stored hotel. *)
Definition binds_no_alias (c : call) : bool :=
  match c with
  | GetHotel _ => false
  | _ => true
  end.

(** Calls whose [total_rooms] argument, if any, is not negative. *)
Definition total_rooms_not_negative (c : call) : Prop :=
  match c with
  | CreateHotel _ _ total_rooms => 0 ≤ total_rooms
  | HotelModifyInfo _ _ _ (Some total_rooms') => 0 ≤ total_rooms'
  | _ => True
  end.

(** An identifier that [uuid4] returned in one of its first [n] calls. *)
Definition issued (n : nat) (ident : string) : Prop :=
  ∃ k, (k < n)%nat ∧ ident = pretty k.

(** What a session keeps true as long as every hotel instance comes from
    [create_hotel]: instances and records are in range, no two instances
    have one id, the record that the loops reach for an instance has the
    instance's total, and every id was issued by [uuid4]. *)
Record consistent_parts (objects records : list Hotel) (n : nat) : Prop := {
  objects_in_range : Forall rooms_in_range objects;
  records_in_range : Forall rooms_in_range records;
  objects_distinct :
    ∀ i j h1 h2, objects !! i = Some h1 → objects !! j = Some h2 →
                 hotel_id h1 = hotel_id h2 → i = j;
  totals_agree :
    ∀ i h r, objects !! i = Some h →
             first_match (λ x, bool_decide (hotel_id x = hotel_id h)) records
             = Some r →
             total_rooms r = total_rooms h;
  objects_issued : ∀ i h, objects !! i = Some h → issued n (hotel_id h);
  records_issued : ∀ r, r ∈ records → issued n (hotel_id r)
}.

Definition consistent (s : Session) : Prop :=
  consistent_parts (hotel_objects s) (hotels_json (world s))
                   (uuid_drawn (world s)).

(** ** More caller scripts *)

(** [k] calls of [self.reserve_room()] in a row on one instance; the first
    component counts the calls that returned [True]. *)
Fixpoint reserve_rooms (k : nat) (self : Hotel) (w : World)
    : nat * Hotel * World :=
  match k with
  | O => (O, self, w)
  | S k =>
      let '(reserved, self, w) := Hotel.reserve_room self w in
      let '(n, self, w) := reserve_rooms k self w in
      (if reserved then S n else n, self, w)
  end.

(** [self.modify_info(total_rooms=t)] followed by
    [self.modify_info(total_rooms=old)], [old] being the total before. *)
Definition resize_and_back (self : Hotel) (t : Z) (w : World)
    : Hotel * World :=
  let old := total_rooms self in
  let '(self, w) := Hotel.modify_info self None None (Some t) w in
  Hotel.modify_info self None None (Some old) w.

(** [r = Reservation.create_reservation(customer, hotel)] followed, when
    [r] is not [None], by [Reservation.cancel_reservation(r.reservation_id)].
    The result is what the cancellation returned, the object [hotel] as
    the caller still holds it, and the world. *)
Definition book_and_cancel (customer : Customer) (hotel : Hotel)
    (now : string) (w : World) : option bool * pyobj * World :=
  let '(r, hotel, w) :=
    Reservation.create_reservation (PyCustomer customer) (PyHotel hotel)
                                   now w in
  match r with
  | Some r =>
      let '(cancelled, w) :=
        Reservation.cancel_reservation (reservation_id r) w in
      (Some cancelled, hotel, w)
  | None => (None, hotel, w)
  end.

(** ** The data directory, with files that may be missing

    The methods above run on a [World], where the three files exist.  The
    persistence functions themselves also run when the directory or a file
    is missing: [open] then raises an [IOError], which [load_data] turns
    into an empty list and [save_data] into a write that does not happen. *)

Inductive collection := Hotels | Customers | Reservations.

Definition record (c : collection) : Type :=
  match c with
  | Hotels => Hotel
  | Customers => Customer
  | Reservations => Reservation
  end.

(** The file of a collection, as the methods address it. *)
Definition file_of (c : collection) : File (record c) :=
  match c with
  | Hotels => HOTELS_FILE
  | Customers => CUSTOMERS_FILE
  | Reservations => RESERVATIONS_FILE
  end.

Inductive Disk :=
  | NoDataDir
  | DataDir (hotels : option (list Hotel))
            (customers : option (list Customer))
            (reservations : option (list Reservation)).

(** The content of a file, [None] when [open(file_path, "r")] fails. *)
Definition read_path (c : collection) (d : Disk) : option (list (record c)) :=
  match d with
  | NoDataDir => None
  | DataDir hotels customers reservations =>
      match c with
      | Hotels => hotels
      | Customers => customers
      | Reservations => reservations
      end
  end.

(** [json.dump(data, f)] into a file of an existing directory. *)
Definition write_path (c : collection) (data : list (record c))
    (hotels : option (list Hotel)) (customers : option (list Customer))
    (reservations : option (list Reservation)) : Disk :=
  match c return list (record c) → Disk with
  | Hotels => λ data, DataDir (Some data) customers reservations
  | Customers => λ data, DataDir hotels (Some data) reservations
  | Reservations => λ data, DataDir hotels customers (Some data)
  end data.

(** The disk on which the three files hold the collections of a world. *)
Definition disk_of (w : World) : Disk :=
  DataDir (Some (hotels_json w)) (Some (customers_json w))
          (Some (reservations_json w)).

Module OnDisk.

Definition ensure_data_files (d : Disk) : Disk :=
  (* os.makedirs(DATA_DIR) when the directory does not exist *)
  let d := match d with
           | NoDataDir => DataDir None None None
           | DataDir _ _ _ => d
           end in
  (* each file that does not exist is created with [] in it *)
  let create_missing (c : collection) (d : Disk) : Disk :=
    match d, read_path c d with
    | DataDir hotels customers reservations, None =>
        write_path c [] hotels customers reservations
    | _, _ => d
    end in
  create_missing Reservations (create_missing Customers
                                 (create_missing Hotels d)).

Definition load_data (c : collection) (d : Disk) : list (record c) :=
  match read_path c d with
  | Some data => data
  | None => []          (* IOError: reported, and the empty list returned *)
  end.

Definition save_data (c : collection) (data : list (record c)) (d : Disk)
    : Disk :=
  match d with
  | NoDataDir => d        (* IOError: reported, nothing written *)
  | DataDir hotels customers reservations =>
      write_path c data hotels customers reservations
  end.

End OnDisk.

(** ** More conditions on sessions and worlds *)

(** Calls whose [create_hotel], if any, passes no negative [total_rooms]. *)
Definition creates_no_negative_total (c : call) : Prop :=
  match c with
  | CreateHotel _ _ total_rooms => 0 ≤ total_rooms
  | _ => True
  end.

(** No hotel, instance or stored record, has a negative number of
    available rooms. *)
Definition no_room_overbooked (s : Session) : Prop :=
  Forall (λ h, 0 ≤ available_rooms h) (hotel_objects s)
  ∧ Forall (λ h, 0 ≤ available_rooms h) (hotels_json (world s)).

(** No collection stores two records under one id, and every stored id
    was returned by [uuid4]. *)
Record stored_ids_unique (w : World) : Prop := {
  hotel_ids_unique : NoDup (hotel_id <$> hotels_json w);
  customer_ids_unique : NoDup (customer_id <$> customers_json w);
  reservation_ids_unique : NoDup (reservation_id <$> reservations_json w);
  hotel_ids_issued :
    ∀ r, r ∈ hotels_json w → issued (uuid_drawn w) (hotel_id r);
  customer_ids_issued :
    ∀ r, r ∈ customers_json w → issued (uuid_drawn w) (customer_id r);
  reservation_ids_issued :
    ∀ r, r ∈ reservations_json w → issued (uuid_drawn w) (reservation_id r)
}.

(** A list of ids without repetition, each returned by one of the first
    [n] calls of [uuid4]. *)
Definition ids_ok (n : nat) (ids : list string) : Prop :=
  NoDup ids ∧ ∀ k, k ∈ ids → issued n k.

(** * Properties *)

(** ** The two loops over a collection *)

Section Loops.
Context {A : Type}.
Implicit Types (matches : A → bool) (data : list A).

Lemma first_match_None matches data :
  first_match matches data = None ↔ ∀ x, x ∈ data → matches x = false.
Proof.
  induction data as [|h rest IH]; simpl.
  - split; [intros _ x Hx; inversion Hx | done].
  - destruct (matches h) eqn:Hh.
    + split; [done | intros Hall].
      specialize (Hall h (list_elem_of_here _ _)). congruence.
    + rewrite IH. split.
      * intros Hrest x Hx. apply elem_of_cons in Hx as [->|Hx]; auto.
      * intros Hall x Hx. apply Hall. by apply list_elem_of_further.
Qed.

Lemma first_match_Some matches data x :
  first_match matches data = Some x → x ∈ data ∧ matches x = true.
Proof.
  induction data as [|h rest IH]; simpl; [done|].
  destruct (matches h) eqn:Hh.
  - intros [= <-]. split; [apply list_elem_of_here | done].
  - intros Hx. destruct (IH Hx). split; [by apply list_elem_of_further | done].
Qed.

Lemma first_match_is_Some matches data x :
  x ∈ data → matches x = true → is_Some (first_match matches data).
Proof.
  intros Hx Hm. destruct (first_match matches data) eqn:E; [by eexists|].
  rewrite first_match_None in E. rewrite (E x Hx) in Hm. done.
Qed.

Lemma update_first_no_match matches update data :
  (∀ x, x ∈ data → matches x = false) →
  update_first matches update data = data.
Proof.
  induction data as [|h rest IH]; simpl; [done|]. intros Hall.
  rewrite (Hall h (list_elem_of_here _ _)). f_equal. apply IH.
  intros x Hx. apply Hall. by apply list_elem_of_further.
Qed.

Lemma update_first_length matches update data :
  length (update_first matches update data) = length data.
Proof.
  induction data as [|h rest IH]; simpl; [done|].
  destruct (matches h); simpl; by rewrite ?IH.
Qed.

Lemma elem_of_update_first matches update data y :
  y ∈ update_first matches update data →
  y ∈ data ∨ ∃ x, x ∈ data ∧ matches x = true ∧ y = update x.
Proof.
  induction data as [|h rest IH]; simpl; [by left|].
  destruct (matches h) eqn:Hh; intros Hy.
  - apply elem_of_cons in Hy as [->|Hy].
    + right. exists h. split; [apply list_elem_of_here | done].
    + left. by apply list_elem_of_further.
  - apply elem_of_cons in Hy as [->|Hy]; [left; apply list_elem_of_here|].
    destruct (IH Hy) as [?|(x & ? & ? & ?)].
    + left. by apply list_elem_of_further.
    + right. exists x. split; [by apply list_elem_of_further | done].
Qed.

(** After the update loop, the lookup loop with the same test finds the
    updated record, as long as the update keeps the record matching. *)
Lemma first_match_update_first matches update data :
  (∀ x, matches x = true → matches (update x) = true) →
  first_match matches (update_first matches update data)
  = update <$> first_match matches data.
Proof.
  intros Hkeep. induction data as [|h rest IH]; simpl; [done|].
  destruct (matches h) eqn:Hh; simpl.
  - by rewrite (Hkeep h Hh).
  - by rewrite Hh.
Qed.

Lemma first_match_update_first_other matches matches' update data :
  (∀ x, matches x = true →
        matches' x = false ∧ matches' (update x) = false) →
  first_match matches' (update_first matches update data)
  = first_match matches' data.
Proof.
  intros Hother. induction data as [|h rest IH]; simpl; [done|].
  destruct (matches h) eqn:Hh; simpl.
  - destruct (Hother h Hh) as [-> ->]. done.
  - by rewrite IH.
Qed.

Lemma Forall_update_first (P : A → Prop) matches update data :
  Forall P data →
  (∀ x, first_match matches data = Some x → P (update x)) →
  Forall P (update_first matches update data).
Proof.
  induction 1 as [|h rest Hh Hrest IH]; simpl; [constructor|].
  destruct (matches h) eqn:Hm; intros Hupd.
  - constructor; [by apply Hupd | done].
  - constructor; [done | by apply IH].
Qed.

Lemma first_match_snoc matches data x :
  first_match matches (data ++ [x])
  = match first_match matches data with
    | Some y => Some y
    | None => if matches x then Some x else None
    end.
Proof.
  induction data as [|h rest IH]; simpl; [done|].
  by destruct (matches h).
Qed.

Lemma first_match_filter (P : A → Prop) `{∀ x, Decision (P x)}
    matches data :
  (∀ x, matches x = true → P x) →
  first_match matches (filter P data) = first_match matches data.
Proof.
  intros HP. induction data as [|h rest IH]; [done|].
  rewrite filter_cons. destruct (decide (P h)) as [Hh|Hh]; simpl.
  - by rewrite IH.
  - destruct (matches h) eqn:Hm; [|done]. destruct (Hh (HP h Hm)).
Qed.

End Loops.

(** A collection filtered by [key != ident] holds no record that the
    lookup by [ident] could return. *)
Lemma first_match_filter_ne {A} (key : A → string) (ident : string)
    (data : list A) :
  first_match (λ x, bool_decide (key x = ident))
              (filter (λ x, key x ≠ ident) data) = None.
Proof.
  apply first_match_None. intros x Hx.
  apply list_elem_of_filter in Hx as [Hne _]. by apply bool_decide_eq_false.
Qed.

(** ** Hotel: room accounting *)

(** C2.  [modify_info] with a new [total_rooms] sets the total and moves
    [available_rooms] by the difference between the new and the old total,
    with zero as its floor.  No ceiling is applied: the result exceeds the
    new total exactly when the new total is negative or the instance held
    more available rooms than its old total.  The first stored record with
    the instance's id takes the instance's fields.  A full hotel of 5
    rooms updated to 8 has 8 available rooms. *)
Theorem modify_info_shifts_available_rooms :
  (∀ (self : Hotel) (name' location' : option string) (new_total : Z)
     (w : World),
     let r := Hotel.modify_info self name' location' (Some new_total) w in
     total_rooms r.1 = new_total
     ∧ available_rooms r.1
       = Z.max 0 (available_rooms self + (new_total - total_rooms self))
     ∧ (new_total < available_rooms r.1
        ↔ new_total < 0 ∨ total_rooms self < available_rooms self)
     ∧ Hotel.get_hotel (hotel_id self) r.2
       = (λ _, r.1) <$> Hotel.get_hotel (hotel_id self) w)
  ∧ (∀ (hotel_id name location : string) (w : World),
       let full := mkHotel hotel_id name location 5 5 in
       let r := Hotel.modify_info full None None (Some 8) w in
       total_rooms r.1 = 8 ∧ available_rooms r.1 = 8).
Proof.
  split.
  - intros self name' location' new_total w r. subst r.
    assert (Hid : ∀ arg (h : Hotel),
              hotel_id (if_truthy arg set_name h) = hotel_id h
              ∧ total_rooms (if_truthy arg set_name h) = total_rooms h
              ∧ available_rooms (if_truthy arg set_name h)
                = available_rooms h).
    { intros [v|] h; simpl; [case_bool_decide|]; done. }
    assert (Hil : ∀ arg (h : Hotel),
              hotel_id (if_truthy arg set_location h) = hotel_id h
              ∧ total_rooms (if_truthy arg set_location h) = total_rooms h
              ∧ available_rooms (if_truthy arg set_location h)
                = available_rooms h).
    { intros [v|] h; simpl; [case_bool_decide|]; done. }
    unfold Hotel.modify_info, Hotel.get_hotel, load_data, save_data. simpl.
    destruct (Hil location' (if_truthy name' set_name self)) as (Li & Lt & La).
    destruct (Hid name' self) as (Ni & Nt & Na).
    rewrite La, Lt, Na, Nt.
    case_decide as Hneg; simpl; rewrite ?Li, ?Ni.
    + repeat split; try lia.
      rewrite first_match_update_first; [done|].
      intros x Hx. apply bool_decide_eq_true. simpl. by rewrite Li, Ni.
    + repeat split; try lia.
      rewrite first_match_update_first; [done|].
      intros x Hx. apply bool_decide_eq_true. simpl. by rewrite Li, Ni.
  - intros. done.
Qed.

(** C5.  On a hotel with no available room [reserve_room] returns [False]
    and changes neither the instance nor any stored collection. *)
Theorem reserve_room_none_available (self : Hotel) (w : World) :
  available_rooms self = 0 →
  Hotel.reserve_room self w = (false, self, w).
Proof.
  intros Hzero. unfold Hotel.reserve_room.
  case_decide; [lia | done].
Qed.

Lemma reserve_room_none_available_witness :
  let full_house := mkHotel "7" "Hotel Reserve" "City" 2 0 in
  let w := mkWorld [full_house] [] [] 1%nat in
  Hotel.reserve_room full_house w = (false, full_house, w).
Proof.
  apply (reserve_room_none_available (mkHotel "7" "Hotel Reserve" "City" 2 0)).
  reflexivity.
Defined.

(** [reserve_room] and [cancel_room] on the instance alone. *)
Lemma reserve_room_instance (self : Hotel) (w : World) :
  (Hotel.reserve_room self w).1
  = if decide (available_rooms self > 0)
    then (true, set_available_rooms (available_rooms self - 1) self)
    else (false, self).
Proof. unfold Hotel.reserve_room. by case_decide. Qed.

Lemma cancel_room_instance (self : Hotel) (w : World) :
  (Hotel.cancel_room self w).1
  = if decide (available_rooms self < total_rooms self)
    then (true, set_available_rooms (available_rooms self + 1) self)
    else (false, self).
Proof. unfold Hotel.cancel_room. by case_decide. Qed.

Lemma reserve_then_cancel_instance (self : Hotel) (w : World) :
  (reserve_then_cancel self w).1
  = ((Hotel.cancel_room (Hotel.reserve_room self w).1.2
                        (Hotel.reserve_room self w).2).1).2.
Proof.
  unfold reserve_then_cancel.
  destruct (Hotel.reserve_room self w) as [[b1 s1] w1]. simpl.
  by destruct (Hotel.cancel_room s1 w1) as [[b2 s2] w2].
Qed.

(** C3, as amended.  [reserve_room] followed by [cancel_room] gives
    [available_rooms] its prior value exactly when both calls succeed
    (0 < available_rooms <= total_rooms) or both fail
    (total_rooms <= available_rooms <= 0).  When both succeed the other
    attributes are kept as well, so the instance is as it was. *)
Theorem reserve_then_cancel_restores_iff (self : Hotel) (w : World) :
  (available_rooms (reserve_then_cancel self w).1 = available_rooms self
   ↔ 0 < available_rooms self ≤ total_rooms self
     ∨ total_rooms self ≤ available_rooms self ≤ 0)
  ∧ ((reserve_then_cancel self w).1 = self
     ↔ available_rooms (reserve_then_cancel self w).1 = available_rooms self).
Proof.
  rewrite reserve_then_cancel_instance, cancel_room_instance.
  rewrite reserve_room_instance.
  destruct self as [i n l t a]. simpl.
  repeat (case_decide; simpl in * ); unfold set_available_rooms; simpl;
    (split; [lia | split; [intros Heq | intros Heq; f_equal; lia]]);
    apply (f_equal available_rooms) in Heq; simpl in Heq; lia.
Qed.

(** C3, the claim as written fails: on a hotel of 5 rooms with none
    available, [reserve_room] fails and [cancel_room] then succeeds, so
    [available_rooms] ends at 1 and not at 0. *)
Lemma reserve_then_cancel_not_always_restoring :
  let sold_out := mkHotel "0" "Hotel Reserve" "City" 5 0 in
  let w := mkWorld [sold_out] [] [] 1%nat in
  Hotel.reserve_room sold_out w = (false, sold_out, w)
  ∧ (Hotel.cancel_room sold_out w).1.1 = true
  ∧ available_rooms (reserve_then_cancel sold_out w).1 = 1
  ∧ ¬ (∀ (self : Hotel) (w : World),
         available_rooms (reserve_then_cancel self w).1
         = available_rooms self).
Proof.
  repeat split; try reflexivity.
  intros Hall.
  specialize (Hall (mkHotel "0" "Hotel Reserve" "City" 5 0)
                   (mkWorld [mkHotel "0" "Hotel Reserve" "City" 5 0] [] []
                            1%nat)).
  vm_compute in Hall. discriminate Hall.
Qed.

(** ** Empty strings as updates *)

(** C10.  An empty string given to [modify_info] for [name], [location],
    [email] or [phone] leaves that attribute as it was, and the whole call
    returns what it returns when the argument is not supplied. *)
Theorem modify_info_empty_string_ignored :
  (∀ (self : Hotel) (location' : option string) (total_rooms' : option Z)
     (w : World),
     Hotel.modify_info self (Some "") location' total_rooms' w
     = Hotel.modify_info self None location' total_rooms' w
     ∧ name (Hotel.modify_info self (Some "") location' total_rooms' w).1
       = name self)
  ∧ (∀ (self : Hotel) (name' : option string) (total_rooms' : option Z)
       (w : World),
       Hotel.modify_info self name' (Some "") total_rooms' w
       = Hotel.modify_info self name' None total_rooms' w
       ∧ location (Hotel.modify_info self name' (Some "") total_rooms' w).1
         = location self)
  ∧ (∀ (self : Customer) (email' phone' : option string) (w : World),
       Customer.modify_info self (Some "") email' phone' w
       = Customer.modify_info self None email' phone' w
       ∧ customer_name (Customer.modify_info self (Some "") email' phone' w).1
         = customer_name self)
  ∧ (∀ (self : Customer) (name' phone' : option string) (w : World),
       Customer.modify_info self name' (Some "") phone' w
       = Customer.modify_info self name' None phone' w
       ∧ email (Customer.modify_info self name' (Some "") phone' w).1
         = email self)
  ∧ (∀ (self : Customer) (name' email' : option string) (w : World),
       Customer.modify_info self name' email' (Some "") w
       = Customer.modify_info self name' email' None w
       ∧ phone (Customer.modify_info self name' email' (Some "") w).1
         = phone self).
Proof.
  repeat split.
  - unfold Hotel.modify_info. simpl.
    destruct location' as [v|]; simpl; [case_bool_decide|]; simpl;
      destruct total_rooms' as [t|]; simpl; try case_decide; done.
  - unfold Hotel.modify_info. simpl.
    destruct name' as [v|]; simpl; [case_bool_decide|]; simpl;
      destruct total_rooms' as [t|]; simpl; try case_decide; done.
  - unfold Customer.modify_info. simpl.
    destruct email' as [v|]; simpl; [case_bool_decide|]; simpl;
      (destruct phone' as [p|]; simpl; [case_bool_decide|]); done.
  - unfold Customer.modify_info. simpl.
    destruct name' as [v|]; simpl; [case_bool_decide|]; simpl;
      (destruct phone' as [p|]; simpl; [case_bool_decide|]); done.
  - unfold Customer.modify_info. simpl.
    destruct name' as [v|]; simpl; [case_bool_decide|]; simpl;
      (destruct email' as [p|]; simpl; [case_bool_decide|]); done.
Qed.

(** ** Reservation: creation and cancellation *)

(** [create_reservation] on an argument of the wrong class. *)
Lemma create_reservation_rejects
    (customer_instance hotel_instance : pyobj) (now : string) (w : World) :
  isinstance_Customer customer_instance = false
  ∨ isinstance_Hotel hotel_instance = false →
  Reservation.create_reservation customer_instance hotel_instance now w
  = (None, hotel_instance, w).
Proof.
  intros [Hc|Hh]; destruct customer_instance, hotel_instance;
    simpl in *; done.
Qed.

(** C6.  When the first argument is not a [Customer] or the second is not
    a [Hotel], [create_reservation] returns [None]; the stored collections
    (reservations and hotels included) and the object passed as hotel are
    left as they were. *)
Theorem create_reservation_invalid_argument
    (customer_instance hotel_instance : pyobj) (now : string) (w : World) :
  isinstance_Customer customer_instance = false
  ∨ isinstance_Hotel hotel_instance = false →
  Reservation.create_reservation customer_instance hotel_instance now w
  = (None, hotel_instance, w).
Proof. apply create_reservation_rejects. Qed.

Lemma create_reservation_invalid_argument_witness :
  let w := mkWorld [mkHotel "0" "Res Hotel" "Res City" 1 1] [] [] 1%nat in
  Reservation.create_reservation (PyStr "not_customer") (PyStr "not_hotel")
                                 "2024-01-01 00:00:00" w
  = (None, PyStr "not_hotel", w).
Proof.
  apply (create_reservation_invalid_argument
           (PyStr "not_customer") (PyStr "not_hotel")).
  left. reflexivity.
Defined.

(** C7.  [cancel_reservation] returns [False], changing nothing, when no
    stored reservation has the id.  Otherwise it returns [True]; the
    hotels collection is what [cancel_room] of the hotel looked up by the
    reservation's [hotel_id] leaves, or is untouched when that hotel is
    not stored; every record with the id is filtered out of the
    reservations, the others are kept in order, and customers are not
    touched. *)
Theorem cancel_reservation_behaviour (reservation_id' : string) (w : World) :
  let by_id := λ r, bool_decide (reservation_id r = reservation_id') in
  let result := Reservation.cancel_reservation reservation_id' w in
  ((∀ r, r ∈ reservations_json w → reservation_id r ≠ reservation_id') →
   result = (false, w))
  ∧ (∀ r, first_match by_id (reservations_json w) = Some r →
       result.1 = true
       ∧ reservations_json result.2
         = filter (λ r, reservation_id r ≠ reservation_id')
                  (reservations_json w)
       ∧ (∀ r', r' ∈ reservations_json result.2 →
                reservation_id r' ≠ reservation_id')
       ∧ customers_json result.2 = customers_json w
       ∧ match Hotel.get_hotel (reservation_hotel_id r) w with
         | Some hotel =>
             hotels_json result.2 = hotels_json (Hotel.cancel_room hotel w).2
         | None => hotels_json result.2 = hotels_json w
         end)
  ∧ ((∃ r, r ∈ reservations_json w ∧ reservation_id r = reservation_id') →
     is_Some (first_match by_id (reservations_json w))).
Proof.
  intros by_id result. subst result. unfold Reservation.cancel_reservation.
  unfold load_data. simpl. fold by_id.
  split; [|split].
  - intros Hnone.
    assert (first_match by_id (reservations_json w) = None) as ->; [|done].
    apply first_match_None. intros r Hr. apply bool_decide_eq_false. auto.
  - intros r ->. simpl.
    assert (Hres : ∀ h, reservations_json (Hotel.cancel_room h w).2
                        = reservations_json w
                        ∧ customers_json (Hotel.cancel_room h w).2
                          = customers_json w).
    { intros h. unfold Hotel.cancel_room. by case_decide. }
    repeat split.
    + intros r' Hr'. by apply list_elem_of_filter in Hr' as [? _].
    + destruct (Hotel.get_hotel _ w) as [h|]; [apply Hres | done].
    + by destruct (Hotel.get_hotel _ w) as [h|].
  - intros (r & Hr & Hid). apply (first_match_is_Some _ _ r Hr).
    by apply bool_decide_eq_true.
Qed.

(** C8.  After [delete_hotel] the lookup by the same id returns [None];
    likewise for customers; and a reservation id that was cancelled is not
    found by a second [cancel_reservation]. *)
Theorem delete_then_get_not_found (ident : string) (w : World) :
  Hotel.get_hotel ident (Hotel.delete_hotel ident w) = None
  ∧ Customer.get_customer ident (Customer.delete_customer ident w) = None
  ∧ (Reservation.cancel_reservation ident
       (Reservation.cancel_reservation ident w).2).1 = false.
Proof.
  split; [|split].
  - unfold Hotel.get_hotel, Hotel.delete_hotel, load_data. simpl.
    case_decide as Hlen; simpl.
    + apply first_match_None. intros h Hh. apply bool_decide_eq_false.
      intros Hid.
      pose proof (length_filter_lt (λ h, hotel_id h ≠ ident) _ h Hh) as Hlt.
      simpl in Hlt. specialize (Hlt (λ Hne, Hne Hid)). lia.
    + apply (first_match_filter_ne hotel_id).
  - unfold Customer.get_customer, Customer.delete_customer, load_data. simpl.
    case_decide as Hlen; simpl.
    + apply first_match_None. intros c Hc. apply bool_decide_eq_false.
      intros Hid.
      pose proof (length_filter_lt (λ c, customer_id c ≠ ident) _ c Hc) as Hlt.
      simpl in Hlt. specialize (Hlt (λ Hne, Hne Hid)). lia.
    + apply (first_match_filter_ne customer_id).
  - unfold Reservation.cancel_reservation at 2. unfold load_data. simpl.
    destruct (first_match _ (reservations_json w)) as [r|] eqn:Hfirst; simpl.
    + unfold Reservation.cancel_reservation, load_data. simpl.
      by rewrite (first_match_filter_ne reservation_id).
    + unfold Reservation.cancel_reservation, load_data. simpl.
      by rewrite Hfirst.
Qed.

(** C9.  When the hotel of the reservation is stored with all its rooms
    available, [cancel_room] returns [False] and restores nothing, and
    [cancel_reservation] still filters the reservation out and returns
    [True]. *)
Theorem cancel_reservation_hotel_already_full
    (reservation_id' : string) (w : World) (r : Reservation) (hotel : Hotel) :
  first_match (λ r, bool_decide (reservation_id r = reservation_id'))
              (reservations_json w) = Some r →
  Hotel.get_hotel (reservation_hotel_id r) w = Some hotel →
  available_rooms hotel = total_rooms hotel →
  Hotel.cancel_room hotel w = (false, hotel, w)
  ∧ Reservation.cancel_reservation reservation_id' w
    = (true,
       save_data RESERVATIONS_FILE
         (filter (λ r, reservation_id r ≠ reservation_id')
                 (reservations_json w)) w)
  ∧ hotels_json (Reservation.cancel_reservation reservation_id' w).2
    = hotels_json w
  ∧ ∀ r', r' ∈ reservations_json
                 (Reservation.cancel_reservation reservation_id' w).2 →
          reservation_id r' ≠ reservation_id'.
Proof.
  intros Hr Hh Hfull.
  assert (Hcancel : Hotel.cancel_room hotel w = (false, hotel, w)).
  { unfold Hotel.cancel_room. case_decide; [lia | done]. }
  assert (Hres : Reservation.cancel_reservation reservation_id' w
                 = (true,
                    save_data RESERVATIONS_FILE
                      (filter (λ r, reservation_id r ≠ reservation_id')
                              (reservations_json w)) w)).
  { unfold Reservation.cancel_reservation, load_data. simpl.
    rewrite Hr. simpl. rewrite Hh, Hcancel. done. }
  rewrite Hres. repeat split; try done.
  simpl. intros r' Hr'. by apply list_elem_of_filter in Hr' as [? _].
Qed.

Lemma cancel_reservation_hotel_already_full_witness :
  let hotel := mkHotel "0" "Res Hotel" "Res City" 1 1 in
  let r := mkReservation "2" "1" "0" "2024-01-01 00:00:00" in
  let w := mkWorld [hotel]
                   [mkCustomer "1" "Res Customer" "res@example.com" "111"]
                   [r] 3%nat in
  Hotel.cancel_room hotel w = (false, hotel, w)
  ∧ Reservation.cancel_reservation "2" w
    = (true, mkWorld (hotels_json w) (customers_json w) [] 3%nat).
Proof.
  intros hotel r w.
  destruct (cancel_reservation_hotel_already_full "2" w r hotel)
    as (Hroom & Hres & _); [reflexivity..|].
  split; [exact Hroom | exact Hres].
Defined.

(** ** Room accounting over a whole session *)

Section Consistency.
Implicit Types (objects records : list Hotel) (n : nat) (h r : Hotel).

Local Abbreviation has_id k := (λ x : Hotel, bool_decide (hotel_id x = k)).

Lemma issued_mono n n' ident :
  (n ≤ n')%nat → issued n ident → issued n' ident.
Proof. intros Hle (k & Hk & ->). exists k. split; [lia | done]. Qed.

Lemma issued_not_next n ident : issued n ident → ident ≠ pretty n.
Proof.
  intros (k & Hk & ->) Heq. apply (inj pretty) in Heq. lia.
Qed.

Lemma consistent_parts_mono objects records n n' :
  (n ≤ n')%nat →
  consistent_parts objects records n → consistent_parts objects records n'.
Proof.
  intros Hle [H1 H2 H3 H4 H5 H6]. split; try done.
  - intros i h Hi. eapply issued_mono; eauto.
  - intros r Hr. eapply issued_mono; eauto.
Qed.

(** [create_hotel]: a new instance and its record, under a fresh id. *)
Lemma consistent_parts_create objects records n name location t :
  0 ≤ t →
  consistent_parts objects records n →
  consistent_parts (objects ++ [mkHotel (pretty n) name location t t])
                   (records ++ [mkHotel (pretty n) name location t t])
                   (S n).
Proof.
  intros Ht [H1 H2 H3 H4 H5 H6].
  set (new := mkHotel (pretty n) name location t t).
  assert (Hnew : rooms_in_range new) by (unfold rooms_in_range; simpl; lia).
  assert (Hnone : first_match (has_id (pretty n)) records = None).
  { apply first_match_None. intros x Hx. apply bool_decide_eq_false.
    by apply issued_not_next, H6. }
  split.
  - apply Forall_app. split; [done|]. by constructor.
  - apply Forall_app. split; [done|]. by constructor.
  - intros i j h1 h2 Hi Hj Heq.
    apply lookup_snoc_Some in Hi as [[Hil Hi]|[-> <-]];
      apply lookup_snoc_Some in Hj as [[Hjl Hj]|[-> <-]]; eauto.
    + destruct (issued_not_next n (hotel_id h1)); eauto.
    + destruct (issued_not_next n (hotel_id h2)); eauto.
  - intros i h r Hi Hr. rewrite first_match_snoc in Hr.
    apply lookup_snoc_Some in Hi as [[Hil Hi]|[-> <-]].
    + destruct (first_match (has_id (hotel_id h)) records) as [y|] eqn:E.
      * injection Hr as <-. eauto.
      * case_bool_decide as Hid; [|done]. simpl in Hid.
        destruct (issued_not_next n (hotel_id h)); eauto.
    + simpl in Hr. rewrite Hnone in Hr.
      rewrite bool_decide_eq_true_2 in Hr by done. by injection Hr as <-.
  - intros i h Hi. apply lookup_snoc_Some in Hi as [[Hil Hi]|[-> <-]].
    + eapply issued_mono; [|eauto]. lia.
    + exists n. split; [lia | done].
  - intros r Hr. apply elem_of_app in Hr as [Hr|Hr].
    + eapply issued_mono; [|eauto]. lia.
    + apply list_elem_of_singleton in Hr as ->. exists n. split; [lia | done].
Qed.

(** A write through one of the two update loops, by the instance at
    position [i] (which becomes [h']) or by an instance the caller does
    not hold ([i] out of range and [h'] unused). *)
Lemma consistent_parts_update objects records n i h' ident
    (update : Hotel → Hotel) :
  consistent_parts objects records n →
  (∀ h, objects !! i = Some h →
        hotel_id h = ident ∧ hotel_id h' = ident ∧ rooms_in_range h') →
  (∀ r, hotel_id r = ident → hotel_id (update r) = ident) →
  (∀ r, first_match (has_id ident) records = Some r →
        rooms_in_range (update r)
        ∧ (∀ j h, objects !! j = Some h → hotel_id h = ident →
                  total_rooms (update r)
                  = total_rooms (if decide (j = i) then h' else h))) →
  consistent_parts (<[i := h']> objects)
                   (update_first (has_id ident) update records) n.
Proof.
  intros [H1 H2 H3 H4 H5 H6] Hobj Hid Hupd.
  assert (Hlook : ∀ j h, <[i := h']> objects !! j = Some h →
            ∃ h0, objects !! j = Some h0 ∧ hotel_id h0 = hotel_id h
                  ∧ h = (if decide (j = i) then h' else h0)).
  { intros j h Hj. destruct (decide (j = i)) as [->|Hne].
    - apply list_lookup_insert_Some in Hj as [(_ & <- & Hlt)|[? _]]; [|done].
      destruct (lookup_lt_is_Some_2 objects i Hlt) as [h0 Hh0].
      exists h0. destruct (Hobj h0 Hh0) as (-> & -> & _). done.
    - rewrite list_lookup_insert_ne in Hj by done. by exists h. }
  split.
  - destruct (objects !! i) as [h|] eqn:Hi.
    + apply Forall_insert; [done|]. by destruct (Hobj h eq_refl) as (_ & _ & ?).
    + rewrite list_insert_ge; [done|]. by apply lookup_ge_None.
  - apply Forall_update_first; [done|]. intros r Hr. by destruct (Hupd r Hr).
  - intros j1 j2 h1 h2 Hj1 Hj2 Heq.
    destruct (Hlook j1 h1 Hj1) as (a1 & Ha1 & Hi1 & _).
    destruct (Hlook j2 h2 Hj2) as (a2 & Ha2 & Hi2 & _).
    eapply H3; eauto. congruence.
  - intros j h r Hj Hr.
    destruct (Hlook j h Hj) as (h0 & Hh0 & Hid0 & Hh).
    destruct (decide (hotel_id h = ident)) as [Hk|Hk].
    + rewrite Hk in Hr. rewrite first_match_update_first in Hr.
      2:{ intros x Hx. apply bool_decide_eq_true in Hx.
          apply bool_decide_eq_true. auto. }
      destruct (first_match (has_id ident) records) as [r0|] eqn:Hr0;
        [|done].
      injection Hr as <-. destruct (Hupd r0 eq_refl) as [_ Htot].
      rewrite (Htot j h0 Hh0) by congruence. by rewrite Hh.
    + rewrite first_match_update_first_other in Hr.
      2:{ intros x Hx. apply bool_decide_eq_true in Hx.
          split; apply bool_decide_eq_false; [|rewrite (Hid x Hx)];
            congruence. }
      destruct (decide (j = i)) as [->|Hne].
      * destruct (Hobj h0 Hh0) as (? & ? & _). subst h. congruence.
      * subst h. eauto.
  - intros j h Hj. destruct (Hlook j h Hj) as (h0 & Hh0 & <- & _). eauto.
  - intros r Hr. apply elem_of_update_first in Hr as [Hr|(x & Hx & Hm & ->)].
    + eauto.
    + apply bool_decide_eq_true in Hm. rewrite (Hid x Hm), <- Hm. eauto.
Qed.

(** [delete_hotel]: the records of one id are filtered out. *)
Lemma consistent_parts_filter objects records n ident :
  consistent_parts objects records n →
  consistent_parts objects (filter (λ x, hotel_id x ≠ ident) records) n.
Proof.
  intros [H1 H2 H3 H4 H5 H6]. split; try done.
  - rewrite Forall_forall in H2. apply Forall_forall. intros r Hr.
    apply list_elem_of_filter in Hr as [_ Hr]. auto.
  - intros i h r Hi Hr.
    destruct (decide (hotel_id h = ident)) as [Hk|Hk].
    + rewrite Hk in Hr.
      by rewrite (first_match_filter_ne hotel_id ident records) in Hr.
    + rewrite first_match_filter in Hr; [eauto|].
      intros x Hx. apply bool_decide_eq_true in Hx. congruence.
  - intros r Hr. apply list_elem_of_filter in Hr as [_ Hr]. eauto.
Qed.

End Consistency.

(** What each method does to the instance and to the hotels collection. *)

Lemma reserve_room_effect (h : Hotel) (w : World) :
  (available_rooms h ≤ 0 ∧ Hotel.reserve_room h w = (false, h, w))
  ∨ (0 < available_rooms h
     ∧ Hotel.reserve_room h w
       = (true, set_available_rooms (available_rooms h - 1) h,
          save_data HOTELS_FILE
            (update_first (λ x, bool_decide (hotel_id x = hotel_id h))
                          (set_available_rooms (available_rooms h - 1))
                          (hotels_json w)) w)).
Proof.
  unfold Hotel.reserve_room. case_decide; [right | left]; (split; [lia | done]).
Qed.

Lemma cancel_room_effect (h : Hotel) (w : World) :
  (total_rooms h ≤ available_rooms h ∧ Hotel.cancel_room h w = (false, h, w))
  ∨ (available_rooms h < total_rooms h
     ∧ Hotel.cancel_room h w
       = (true, set_available_rooms (available_rooms h + 1) h,
          save_data HOTELS_FILE
            (update_first (λ x, bool_decide (hotel_id x = hotel_id h))
                          (set_available_rooms (available_rooms h + 1))
                          (hotels_json w)) w)).
Proof.
  unfold Hotel.cancel_room. case_decide; [right | left]; (split; [lia | done]).
Qed.

Lemma if_truthy_hotel_rooms (arg : option string)
    (assign : string → Hotel → Hotel) (h : Hotel) :
  (∀ v x, hotel_id (assign v x) = hotel_id x
          ∧ total_rooms (assign v x) = total_rooms x
          ∧ available_rooms (assign v x) = available_rooms x) →
  hotel_id (if_truthy arg assign h) = hotel_id h
  ∧ total_rooms (if_truthy arg assign h) = total_rooms h
  ∧ available_rooms (if_truthy arg assign h) = available_rooms h.
Proof.
  intros Hassign. destruct arg as [v|]; simpl; [|done].
  case_bool_decide; [apply Hassign | done].
Qed.

Lemma modify_info_effect (h : Hotel) (name' location' : option string)
    (total_rooms' : option Z) (w : World) :
  let h' := (Hotel.modify_info h name' location' total_rooms' w).1 in
  Hotel.modify_info h name' location' total_rooms' w
  = (h', save_data HOTELS_FILE
           (update_first (λ x, bool_decide (hotel_id x = hotel_id h))
                         (λ _, h') (hotels_json w)) w)
  ∧ hotel_id h' = hotel_id h
  ∧ total_rooms h' = default (total_rooms h) total_rooms'
  ∧ available_rooms h'
    = match total_rooms' with
      | Some t => Z.max 0 (available_rooms h + (t - total_rooms h))
      | None => available_rooms h
      end.
Proof.
  destruct (if_truthy_hotel_rooms name' set_name h) as (Ni & Nt & Na);
    [done|].
  destruct (if_truthy_hotel_rooms location' set_location
              (if_truthy name' set_name h)) as (Li & Lt & La); [done|].
  unfold Hotel.modify_info, load_data. simpl.
  destruct total_rooms' as [t|]; simpl.
  - rewrite La, Lt, Na, Nt.
    case_decide; simpl; rewrite Li, Ni; repeat split; try done; lia.
  - rewrite Li, Ni, Lt, Nt, La, Na. done.
Qed.

Section ConsistentWrites.
Implicit Types (objects records : list Hotel) (n : nat) (h r : Hotel).

Local Abbreviation has_id k := (λ x : Hotel, bool_decide (hotel_id x = k)).

(** [reserve_room] and [cancel_room] of a held instance. *)
Lemma consistent_parts_set_available objects records n i h v :
  consistent_parts objects records n →
  objects !! i = Some h →
  0 ≤ v ≤ total_rooms h →
  consistent_parts
    (<[i := set_available_rooms v h]> objects)
    (update_first (has_id (hotel_id h)) (set_available_rooms v) records) n.
Proof.
  intros Hc Hi Hv. apply consistent_parts_update; [done|..].
  - intros h0 Hh0. assert (h0 = h) as -> by congruence.
    repeat split; simpl; lia.
  - done.
  - intros r Hr. pose proof (totals_agree _ _ _ Hc i h r Hi Hr) as Htot.
    split; [unfold rooms_in_range; simpl; lia|].
    intros j h1 Hj Hid. simpl.
    assert (j = i) as -> by (eapply (objects_distinct _ _ _ Hc); eauto).
    by rewrite decide_True.
Qed.

(** [modify_info] of a held instance. *)
Lemma consistent_parts_modify objects records n i h h' :
  consistent_parts objects records n →
  objects !! i = Some h →
  hotel_id h' = hotel_id h →
  rooms_in_range h' →
  consistent_parts (<[i := h']> objects)
                   (update_first (has_id (hotel_id h)) (λ _, h') records) n.
Proof.
  intros Hc Hi Hid Hrange. apply consistent_parts_update; [done|..].
  - intros h0 Hh0. assert (h0 = h) as -> by congruence. done.
  - done.
  - intros r Hr. split; [done|]. intros j h1 Hj Hid1.
    assert (j = i) as -> by (eapply (objects_distinct _ _ _ Hc); eauto).
    by rewrite decide_True.
Qed.

(** [cancel_room] of the instance that [cancel_reservation] loads. *)
Lemma consistent_parts_stored_cancel objects records n ident r :
  consistent_parts objects records n →
  first_match (has_id ident) records = Some r →
  available_rooms r < total_rooms r →
  consistent_parts
    objects
    (update_first (has_id (hotel_id r))
                  (set_available_rooms (available_rooms r + 1)) records) n.
Proof.
  intros Hc Hr Hlt.
  destruct (first_match_Some _ _ _ Hr) as [Hin Hid].
  apply bool_decide_eq_true in Hid. rewrite Hid.
  rewrite <- (list_insert_ge objects (length objects) r) at 1 by lia.
  apply consistent_parts_update; [done|..].
  - intros h Hh. apply lookup_lt_Some in Hh. lia.
  - done.
  - intros r0 Hr0. assert (r0 = r) as -> by congruence.
    pose proof (records_in_range _ _ _ Hc) as Hall.
    rewrite Forall_forall in Hall. specialize (Hall r Hin).
    split; [unfold rooms_in_range in *; simpl; lia|].
    intros j h Hj Hidh. simpl.
    rewrite decide_False by (apply lookup_lt_Some in Hj; lia).
    eapply (totals_agree _ _ _ Hc); eauto. by rewrite Hidh.
Qed.

End ConsistentWrites.

(** One call keeps a session consistent, when it binds no second instance
    of a stored hotel and passes no negative [total_rooms]. *)
Lemma consistent_step (s : Session) (c : call) :
  binds_no_alias c = true →
  total_rooms_not_negative c →
  consistent s → consistent (step s c).
Proof.
  destruct s as [w objects customers]. unfold consistent.
  cbn [world hotel_objects customer_objects].
  intros Halias Htotal Hc.
  pose proof (objects_in_range _ _ _ Hc) as Hobjs.
  rewrite Forall_forall in Hobjs.
  destruct c;
    cbn [step world hotel_objects customer_objects binds_no_alias
         total_rooms_not_negative resolve write_back] in *;
    try done.
  - (* create_hotel *)
    unfold Hotel.create_hotel. simpl. by apply consistent_parts_create.
  - (* delete_hotel *)
    unfold Hotel.delete_hotel, load_data. simpl.
    case_decide; [done|]. simpl. by apply consistent_parts_filter.
  - (* Hotel.modify_info *)
    destruct (objects !! self) as [h|] eqn:Hself; [|done].
    pose proof (modify_info_effect h name' location' total_rooms' w) as Heff.
    cbv zeta in Heff.
    set (h' := (Hotel.modify_info h name' location' total_rooms' w).1) in Heff.
    clearbody h'. destruct Heff as (Hcall & Hid & Htot & Hav).
    rewrite Hcall. simpl.
    apply consistent_parts_modify; [done..|].
    specialize (Hobjs h (list_elem_of_lookup_2 _ _ _ Hself)).
    unfold rooms_in_range in *. rewrite Htot, Hav.
    destruct total_rooms' as [t|]; simpl in *; lia.
  - (* reserve_room *)
    destruct (objects !! self) as [h|] eqn:Hself; [|done].
    specialize (Hobjs h (list_elem_of_lookup_2 _ _ _ Hself)).
    destruct (reserve_room_effect h w) as [[_ ->]|[Hpos ->]]; simpl.
    + by rewrite list_insert_id.
    + apply consistent_parts_set_available; [done..|].
      unfold rooms_in_range in Hobjs. lia.
  - (* cancel_room *)
    destruct (objects !! self) as [h|] eqn:Hself; [|done].
    specialize (Hobjs h (list_elem_of_lookup_2 _ _ _ Hself)).
    destruct (cancel_room_effect h w) as [[_ ->]|[Hlt ->]]; simpl.
    + by rewrite list_insert_id.
    + apply consistent_parts_set_available; [done..|].
      unfold rooms_in_range in Hobjs. lia.
  - (* create_customer *)
    unfold Customer.create_customer. simpl.
    eapply consistent_parts_mono; [|done]. lia.
  - (* delete_customer *)
    unfold Customer.delete_customer, load_data. simpl. by case_decide.
  - (* get_customer *)
    by destruct (Customer.get_customer customer_id' w).
  - (* Customer.modify_info *)
    destruct (customers !! self); [|done].
    unfold Customer.modify_info. by simpl.
  - (* create_reservation *)
    set (s := mkSession w objects customers).
    destruct (decide (isinstance_Customer (resolve s customer_instance) = true
                      ∧ isinstance_Hotel (resolve s hotel_instance) = true))
      as [[Hcust Hhot]|Hinvalid]; subst s.
    + destruct customer_instance as [v|ref|cref]; simpl in Hcust; try done.
      { by destruct (objects !! ref). }
      destruct hotel_instance as [v'|ref'|cref']; simpl in Hhot; try done.
      2:{ by destruct (customers !! cref'). }
      cbn [resolve hotel_objects customer_objects].
      destruct (customers !! cref) as [customer|]; [|done].
      destruct (objects !! ref') as [h|] eqn:Hself; [|done].
      specialize (Hobjs h (list_elem_of_lookup_2 _ _ _ Hself)).
      cbn [from_option Reservation.create_reservation].
      destruct (reserve_room_effect h w) as [[_ ->]|[Hpos ->]]; simpl.
      * by rewrite list_insert_id.
      * eapply consistent_parts_mono with (n := uuid_drawn w); [lia|].
        apply consistent_parts_set_available; [done..|].
        unfold rooms_in_range in Hobjs. lia.
    + rewrite create_reservation_rejects.
      2:{ destruct (isinstance_Customer _), (isinstance_Hotel _); auto.
          destruct Hinvalid; done. }
      cbn [world].
      destruct hotel_instance as [v'|ref'|cref']; simpl; try done.
      destruct (objects !! ref') as [h|] eqn:Hself; simpl; [|done].
      by rewrite list_insert_id.
  - (* cancel_reservation *)
    unfold Reservation.cancel_reservation, load_data. simpl.
    destruct (first_match _ (reservations_json w)) as [r|]; simpl; [|done].
    destruct (Hotel.get_hotel (reservation_hotel_id r) w) as [h|] eqn:Hget;
      simpl; [|done].
    destruct (cancel_room_effect h w) as [[_ ->]|[Hlt ->]]; simpl; [done|].
    by eapply consistent_parts_stored_cancel.
Qed.

Lemma run_snoc (calls : list call) (c : call) (s : Session) :
  run (calls ++ [c]) s = step (run calls s) c.
Proof. unfold run. by rewrite foldl_snoc. Qed.

Lemma consistent_start : consistent start.
Proof.
  split; simpl; try done.
  - intros r Hr. inversion Hr.
Qed.

Lemma consistent_run (calls : list call) (s : Session) :
  Forall (λ c, binds_no_alias c = true) calls →
  Forall total_rooms_not_negative calls →
  consistent s → consistent (run calls s).
Proof.
  induction calls as [|c calls IH] using rev_ind; [done|].
  intros Halias Htotal Hs.
  apply Forall_app in Halias as [Halias Hc1].
  apply Forall_app in Htotal as [Htotal Hc2].
  rewrite run_snoc. apply consistent_step.
  - by inversion Hc1.
  - by inversion Hc2.
  - by apply IH.
Qed.

(** C1, as amended.  Started on an empty data directory, every sequence of
    calls that passes no negative [total_rooms] and binds no second
    instance of a stored hotel (no [get_hotel]; the deletions and the
    customer operations may be interleaved with the room operations)
    leaves every hotel instance and every stored hotel record with
    0 <= available_rooms <= total_rooms. *)
Theorem rooms_stay_in_range (calls : list call) :
  Forall (λ c, binds_no_alias c = true) calls →
  Forall total_rooms_not_negative calls →
  all_rooms_in_range (run calls start).
Proof.
  intros Halias Htotal.
  pose proof (consistent_run calls start Halias Htotal consistent_start) as Hc.
  split; [apply (objects_in_range _ _ _ Hc)|].
  apply (records_in_range _ _ _ Hc).
Qed.

Lemma rooms_stay_in_range_witness :
  let calls :=
    [ CreateHotel "Res Hotel" "Res City" 1;
      CreateCustomer "Res Customer" "res@example.com" "1112223333";
      CreateReservation (ArgCustomer 0) (ArgHotel 0) "2024-01-01 00:00:00";
      ReserveRoom 0;
      HotelModifyInfo 0 (Some "Hotel B") None (Some 8);
      CancelReservation "2";
      CancelRoom 0;
      HotelModifyInfo 0 None None (Some 3) ] in
  hotel_objects (run calls start) = [mkHotel "0" "Hotel B" "Res City" 3 3]
  ∧ hotels_json (world (run calls start))
    = [mkHotel "0" "Hotel B" "Res City" 3 3]
  ∧ all_rooms_in_range (run calls start).
Proof.
  split; [reflexivity | split; [reflexivity |]].
  apply (rooms_stay_in_range
           [ CreateHotel "Res Hotel" "Res City" 1;
             CreateCustomer "Res Customer" "res@example.com" "1112223333";
             CreateReservation (ArgCustomer 0) (ArgHotel 0)
                               "2024-01-01 00:00:00";
             ReserveRoom 0;
             HotelModifyInfo 0 (Some "Hotel B") None (Some 8);
             CancelReservation "2";
             CancelRoom 0;
             HotelModifyInfo 0 None None (Some 3) ]).
  - repeat constructor.
  - repeat constructor; simpl; lia.
Defined.

(** C1, the claim as written fails.  [create_hotel] with a negative
    [total_rooms] stores a negative [available_rooms], and [modify_info]
    to a negative total leaves [available_rooms] at its floor of zero,
    above the new total.  With no negative number at all, a second
    instance of a stored hotel, bound by [get_hotel], keeps its own copy of
    the attributes: after [modify_info] through one instance, a
    [reserve_room] through the other stores more available rooms than the
    total. *)
Lemma rooms_out_of_range :
  let created := [CreateHotel "Hotel A" "City A" (-1)] in
  let shrunk := [CreateHotel "Hotel A" "City A" 5;
                 HotelModifyInfo 0 None None (Some (-3))] in
  let aliased := [CreateHotel "Hotel A" "City A" 5;
                  GetHotel "0";
                  HotelModifyInfo 1 None None (Some 3);
                  ReserveRoom 0] in
  (Forall (λ c, room_operation c = true) created
   ∧ hotels_json (world (run created start))
     = [mkHotel "0" "Hotel A" "City A" (-1) (-1)]
   ∧ ¬ all_rooms_in_range (run created start))
  ∧ (Forall (λ c, room_operation c = true) shrunk
     ∧ hotels_json (world (run shrunk start))
       = [mkHotel "0" "Hotel A" "City A" (-3) 0]
     ∧ ¬ all_rooms_in_range (run shrunk start))
  ∧ (Forall total_rooms_not_negative aliased
     ∧ hotel_objects (run aliased start)
       = [mkHotel "0" "Hotel A" "City A" 5 4;
          mkHotel "0" "Hotel A" "City A" 3 3]
     ∧ hotels_json (world (run aliased start))
       = [mkHotel "0" "Hotel A" "City A" 3 4]
     ∧ ¬ all_rooms_in_range (run aliased start))
  ∧ ¬ (∀ calls, Forall (λ c, room_operation c = true) calls →
                all_rooms_in_range (run calls start))
  ∧ ¬ (∀ calls, Forall total_rooms_not_negative calls →
                all_rooms_in_range (run calls start)).
Proof.
  assert (Hcreated : ¬ all_rooms_in_range
                       (run [CreateHotel "Hotel A" "City A" (-1)] start)).
  { intros [Hobjs _]. vm_compute in Hobjs. inversion Hobjs as [|? ? Hh _].
    destruct Hh as [Hlow _]. vm_compute in Hlow. by apply Hlow. }
  assert (Hshrunk : ¬ all_rooms_in_range
                      (run [CreateHotel "Hotel A" "City A" 5;
                            HotelModifyInfo 0 None None (Some (-3))] start)).
  { intros [Hobjs _]. vm_compute in Hobjs. inversion Hobjs as [|? ? Hh _].
    destruct Hh as [_ Hhigh]. vm_compute in Hhigh. by apply Hhigh. }
  assert (Haliased : ¬ all_rooms_in_range
                       (run [CreateHotel "Hotel A" "City A" 5;
                             GetHotel "0";
                             HotelModifyInfo 1 None None (Some 3);
                             ReserveRoom 0] start)).
  { intros [_ Hrecs]. vm_compute in Hrecs. inversion Hrecs as [|? ? Hh _].
    destruct Hh as [_ Hhigh]. vm_compute in Hhigh. by apply Hhigh. }
  repeat split; try done.
  - repeat constructor.
  - repeat constructor.
  - repeat constructor; simpl; lia.
  - intros Hall. apply Hcreated, Hall. repeat constructor.
  - intros Hall. apply Haliased, Hall. repeat constructor; simpl; lia.
Qed.

(** The end-to-end run of the test suite: a hotel of one room, a customer
    and a reservation leave no room available; cancelling the reservation
    gives the room back and removes the record. *)
Example create_and_cancel_reservation :
  let booked := [CreateHotel "Res Hotel" "Res City" 1;
                 CreateCustomer "Res Customer" "res@example.com" "1112223333";
                 CreateReservation (ArgCustomer 0) (ArgHotel 0)
                                   "2024-01-01 00:00:00"] in
  let cancelled := booked ++ [CancelReservation "2"] in
  hotels_json (world (run booked start))
  = [mkHotel "0" "Res Hotel" "Res City" 1 0]
  ∧ reservations_json (world (run booked start))
    = [mkReservation "2" "1" "0" "2024-01-01 00:00:00"]
  ∧ hotels_json (world (run cancelled start))
    = [mkHotel "0" "Res Hotel" "Res City" 1 1]
  ∧ reservations_json (world (run cancelled start)) = [].
Proof. repeat split; reflexivity. Qed.

(** ** Reservations and room decrements *)

(** The room methods leave the reservations collection as it is. *)
Lemma reserve_room_reservations (h : Hotel) (w : World) :
  reservations_json (Hotel.reserve_room h w).2 = reservations_json w.
Proof. by destruct (reserve_room_effect h w) as [[_ ->]|[_ ->]]. Qed.

Lemma cancel_room_reservations (h : Hotel) (w : World) :
  reservations_json (Hotel.cancel_room h w).2 = reservations_json w.
Proof. by destruct (cancel_room_effect h w) as [[_ ->]|[_ ->]]. Qed.

(** [create_reservation] returns a reservation only after [reserve_room]
    of the hotel passed to it returned [True]. *)
Lemma create_reservation_Some (customer_instance hotel_instance : pyobj)
    (now : string) (w : World) (r : Reservation) :
  (Reservation.create_reservation customer_instance hotel_instance now w).1.1
  = Some r →
  ∃ customer hotel,
    customer_instance = PyCustomer customer
    ∧ hotel_instance = PyHotel hotel
    ∧ 0 < available_rooms hotel
    ∧ Hotel.reserve_room hotel w
      = (true, set_available_rooms (available_rooms hotel - 1) hotel,
         (Hotel.reserve_room hotel w).2)
    ∧ r = mkReservation (pretty (uuid_drawn w)) (customer_id customer)
                        (hotel_id hotel) now
    ∧ Reservation.create_reservation customer_instance hotel_instance now w
      = (Some r,
         PyHotel (set_available_rooms (available_rooms hotel - 1) hotel),
         save_data RESERVATIONS_FILE (reservations_json w ++ [r])
                   (uuid4 (Hotel.reserve_room hotel w).2).2).
Proof.
  destruct customer_instance as [| | | |customer|];
    destruct hotel_instance as [| | |hotel| |]; simpl; try done.
  destruct (reserve_room_effect hotel w) as [[_ Heq]|[Hpos Heq]];
    rewrite Heq; simpl; [done|].
  intros [= <-]. exists customer, hotel.
  repeat split; try done; by rewrite Heq.
Qed.

(** A record that a call adds to the reservations collection comes from a
    [create_reservation] that returned it. *)
Lemma step_reservations (s : Session) (c : call) (r : Reservation) :
  r ∈ reservations_json (world (step s c)) →
  r ∈ reservations_json (world s)
  ∨ ∃ customer_instance hotel_instance now,
      c = CreateReservation customer_instance hotel_instance now
      ∧ (Reservation.create_reservation (resolve s customer_instance)
                                        (resolve s hotel_instance) now
                                        (world s)).1.1 = Some r.
Proof.
  destruct s as [w objects customers].
  destruct c; cbn [step world hotel_objects customer_objects].
  - (* create_hotel *) unfold Hotel.create_hotel. simpl. by left.
  - (* delete_hotel *)
    unfold Hotel.delete_hotel, load_data. simpl. case_decide; by left.
  - (* get_hotel *)
    destruct (Hotel.get_hotel hotel_id' w); by left.
  - (* Hotel.modify_info *)
    destruct (objects !! self) as [h|]; [|by left].
    destruct (modify_info_effect h name' location' total_rooms' w)
      as (-> & _). simpl. by left.
  - (* reserve_room *)
    destruct (objects !! self) as [h|]; [|by left].
    pose proof (reserve_room_reservations h w) as Hres.
    destruct (Hotel.reserve_room h w) as [[b h'] w']. simpl in *.
    rewrite Hres. by left.
  - (* cancel_room *)
    destruct (objects !! self) as [h|]; [|by left].
    pose proof (cancel_room_reservations h w) as Hres.
    destruct (Hotel.cancel_room h w) as [[b h'] w']. simpl in *.
    rewrite Hres. by left.
  - (* create_customer *) unfold Customer.create_customer. simpl. by left.
  - (* delete_customer *)
    unfold Customer.delete_customer, load_data. simpl. case_decide; by left.
  - (* get_customer *)
    destruct (Customer.get_customer customer_id' w); by left.
  - (* Customer.modify_info *)
    destruct (customers !! self) as [customer|]; [|by left].
    unfold Customer.modify_info. simpl. by left.
  - (* create_reservation *)
    set (s := mkSession w objects customers).
    destruct (Reservation.create_reservation
                (resolve s customer_instance) (resolve s hotel_instance)
                now w) as [[result hotel_after] w'] eqn:Hcall.
    cbn [world]. intros Hr.
    destruct result as [r'|].
    + destruct (create_reservation_Some (resolve s customer_instance)
                  (resolve s hotel_instance) now w r')
        as (customer & hotel & _ & _ & _ & _ & _ & Hfull);
        [by rewrite Hcall|].
      rewrite Hcall in Hfull. injection Hfull as _ ->. simpl in Hr.
      apply elem_of_app in Hr as [Hr|Hr]; [by left|].
      apply list_elem_of_singleton in Hr as ->. right.
      exists customer_instance, hotel_instance, now.
      split; [done | by rewrite Hcall].
    + left. revert Hcall.
      destruct (resolve s customer_instance) as [| | | |customer|];
        destruct (resolve s hotel_instance) as [| | |hotel| |]; simpl;
        try (by intros [= _ <-]).
      pose proof (reserve_room_reservations hotel w) as Hres.
      destruct (Hotel.reserve_room hotel w) as [[[] h'] w'']; simpl in *;
        [done|]. intros [= _ <-]. by rewrite <- Hres.
  - (* cancel_reservation *)
    unfold Reservation.cancel_reservation, load_data. simpl.
    destruct (first_match _ (reservations_json w)) as [r0|]; simpl;
      [|by left].
    intros Hr. apply list_elem_of_filter in Hr as [_ Hr]. by left.
Qed.

(** C4.  In every session reached from an empty data directory, each
    stored reservation was returned by a [create_reservation] call of the
    program, made on a [Customer] and a [Hotel] instance, whose
    [reserve_room] found a room available, returned [True] and left the
    instance with one room less.  Conversely, when [reserve_room] returns
    [False], [create_reservation] returns [None] and changes nothing. *)
Theorem reservation_only_after_room_reserved :
  (∀ (calls : list call) (r : Reservation),
     r ∈ reservations_json (world (run calls start)) →
     ∃ before after customer_instance hotel_instance now customer hotel,
       calls = before
               ++ CreateReservation customer_instance hotel_instance now
                  :: after
       ∧ resolve (run before start) customer_instance = PyCustomer customer
       ∧ resolve (run before start) hotel_instance = PyHotel hotel
       ∧ 0 < available_rooms hotel
       ∧ (Hotel.reserve_room hotel (world (run before start))).1
         = (true, set_available_rooms (available_rooms hotel - 1) hotel)
       ∧ (Reservation.create_reservation
            (PyCustomer customer) (PyHotel hotel) now
            (world (run before start))).1
         = (Some r,
            PyHotel (set_available_rooms (available_rooms hotel - 1) hotel)))
  ∧ (∀ (customer : Customer) (hotel : Hotel) (now : string) (w : World),
       (Hotel.reserve_room hotel w).1.1 = false →
       Reservation.create_reservation (PyCustomer customer) (PyHotel hotel)
                                      now w
       = (None, PyHotel hotel, w)).
Proof.
  split.
  - induction calls as [|c calls IH] using rev_ind; intros r Hr.
    { inversion Hr. }
    rewrite run_snoc in Hr.
    apply step_reservations in Hr as [Hr|(ci & hi & now & -> & Hcall)].
    + destruct (IH r Hr)
        as (before & after & ci & hi & now & customer & hotel & -> & Hrest).
      exists before, (after ++ [c]), ci, hi, now, customer, hotel.
      split; [by rewrite <- app_assoc | done].
    + destruct (create_reservation_Some _ _ _ _ _ Hcall)
        as (customer & hotel & Hci & Hhi & Hpos & Hroom & _ & Hfull).
      exists calls, [], ci, hi, now, customer, hotel.
      rewrite Hci, Hhi in Hfull.
      repeat split; try done.
      * by rewrite Hroom.
      * by rewrite Hfull.
  - intros customer hotel now w Hfail. simpl.
    destruct (reserve_room_effect hotel w) as [[_ Heq]|[_ Heq]];
      rewrite Heq in *; simpl in *; done.
Qed.

(** * Further properties of the code *)

Section MoreLoops.
Context {A : Type}.
Implicit Types (matches : A → bool) (data : list A).

Lemma first_match_split matches before x after :
  (∀ y, y ∈ before → matches y = false) →
  matches x = true →
  first_match matches (before ++ x :: after) = Some x.
Proof.
  intros Hbefore Hx. induction before as [|y before IH]; simpl.
  - by rewrite Hx.
  - rewrite (Hbefore y (list_elem_of_here _ _)). apply IH.
    intros z Hz. apply Hbefore. by apply list_elem_of_further.
Qed.

Lemma first_match_Some_split matches data x :
  first_match matches data = Some x →
  ∃ before after,
    data = before ++ x :: after
    ∧ matches x = true
    ∧ ∀ y, y ∈ before → matches y = false.
Proof.
  induction data as [|h rest IH]; simpl; [done|].
  destruct (matches h) eqn:Hh.
  - intros [= <-]. exists [], rest. split; [done|]. split; [done|].
    intros y Hy. inversion Hy.
  - intros Hx. destruct (IH Hx) as (before & after & -> & Hm & Hbefore).
    exists (h :: before), after. split; [done|]. split; [done|].
    intros y Hy. apply elem_of_cons in Hy as [->|Hy]; auto.
Qed.

Lemma update_first_split matches update before x after :
  (∀ y, y ∈ before → matches y = false) →
  matches x = true →
  update_first matches update (before ++ x :: after)
  = before ++ update x :: after.
Proof.
  intros Hbefore Hx. induction before as [|y before IH]; simpl.
  - by rewrite Hx.
  - rewrite (Hbefore y (list_elem_of_here _ _)). f_equal. apply IH.
    intros z Hz. apply Hbefore. by apply list_elem_of_further.
Qed.

End MoreLoops.

(** ** Persistence with missing files *)

(** X1.  [ensure_data_files] leaves every file in existence, changes what
    [load_data] returns for no collection (a file that exists keeps its
    content, a missing one is created empty, and a missing file loads as
    empty already), and running it again changes nothing.  On a directory
    that holds the three files it changes nothing, and with no directory
    it produces the three empty files. *)
Theorem ensure_data_files_keeps_data (d : Disk) :
  (∀ c, is_Some (read_path c (OnDisk.ensure_data_files d)))
  ∧ (∀ c, OnDisk.load_data c (OnDisk.ensure_data_files d)
          = OnDisk.load_data c d)
  ∧ (∀ c data, read_path c d = Some data →
               read_path c (OnDisk.ensure_data_files d) = Some data)
  ∧ OnDisk.ensure_data_files (OnDisk.ensure_data_files d)
    = OnDisk.ensure_data_files d
  ∧ (∀ w, OnDisk.ensure_data_files (disk_of w) = disk_of w)
  ∧ OnDisk.ensure_data_files NoDataDir = disk_of fresh_data_files.
Proof.
  repeat split.
  - intros c. destruct d as [|[h|] [cu|] [r|]], c; simpl; by eexists.
  - intros c. destruct d as [|[h|] [cu|] [r|]], c; reflexivity.
  - intros c data. destruct d as [|[h|] [cu|] [r|]], c; simpl; done.
  - destruct d as [|[h|] [cu|] [r|]]; reflexivity.
Qed.

(** X2.  In an existing data directory [save_data] followed by [load_data]
    of the same file returns the list saved, whether or not the file
    existed, and the other files are not touched.  With no data directory
    the write is lost: the disk is unchanged and [load_data] returns the
    empty list.  A file that is missing loads as the empty list.  On a
    disk that holds the three files of a world, the two functions are the
    [load_data] and [save_data] the methods run on. *)
Theorem save_then_load_on_disk :
  (∀ c data hotels customers reservations,
     let d := DataDir hotels customers reservations in
     OnDisk.load_data c (OnDisk.save_data c data d) = data
     ∧ ∀ c', c' ≠ c →
             read_path c' (OnDisk.save_data c data d) = read_path c' d)
  ∧ (∀ c data,
       OnDisk.save_data c data NoDataDir = NoDataDir
       ∧ OnDisk.load_data c (OnDisk.save_data c data NoDataDir) = [])
  ∧ (∀ c d, read_path c d = None → OnDisk.load_data c d = [])
  ∧ (∀ c data w,
       OnDisk.load_data c (disk_of w) = load_data (file_of c) w
       ∧ OnDisk.save_data c data (disk_of w)
         = disk_of (save_data (file_of c) data w)).
Proof.
  split; [|split; [|split]].
  - intros c data hotels customers reservations d. split.
    + by destruct c.
    + intros c' Hne. destruct c, c'; done.
  - intros c data. split; by destruct c.
  - intros c d Hnone. unfold OnDisk.load_data. by rewrite Hnone.
  - intros c data w. split; by destruct c.
Qed.

(** ** Lookup, creation and deletion *)

(** X3.  [get_hotel] returns a stored record that has the id asked for,
    the first one in file order, and returns [None] exactly when no stored
    record has the id; [get_customer] likewise. *)
Theorem get_finds_first_stored (ident : string) (w : World) :
  (∀ h, Hotel.get_hotel ident w = Some h ↔
        ∃ before after,
          hotels_json w = before ++ h :: after
          ∧ hotel_id h = ident
          ∧ ∀ x, x ∈ before → hotel_id x ≠ ident)
  ∧ (Hotel.get_hotel ident w = None ↔
     ∀ x, x ∈ hotels_json w → hotel_id x ≠ ident)
  ∧ (∀ c, Customer.get_customer ident w = Some c ↔
          ∃ before after,
            customers_json w = before ++ c :: after
            ∧ customer_id c = ident
            ∧ ∀ x, x ∈ before → customer_id x ≠ ident)
  ∧ (Customer.get_customer ident w = None ↔
     ∀ x, x ∈ customers_json w → customer_id x ≠ ident).
Proof.
  unfold Hotel.get_hotel, Customer.get_customer, load_data. simpl.
  repeat split.
  - intros Hget. apply first_match_Some_split in Hget
      as (before & after & -> & Hid & Hbefore).
    exists before, after. split; [done|]. split.
    + by apply bool_decide_eq_true in Hid.
    + intros x Hx. specialize (Hbefore x Hx).
      by apply bool_decide_eq_false in Hbefore.
  - intros (before & after & -> & Hid & Hbefore).
    apply first_match_split; [|by apply bool_decide_eq_true].
    intros x Hx. apply bool_decide_eq_false. auto.
  - intros Hnone x Hx. rewrite first_match_None in Hnone.
    specialize (Hnone x Hx). by apply bool_decide_eq_false in Hnone.
  - intros Hall. apply first_match_None. intros x Hx.
    apply bool_decide_eq_false. auto.
  - intros Hget. apply first_match_Some_split in Hget
      as (before & after & -> & Hid & Hbefore).
    exists before, after. split; [done|]. split.
    + by apply bool_decide_eq_true in Hid.
    + intros x Hx. specialize (Hbefore x Hx).
      by apply bool_decide_eq_false in Hbefore.
  - intros (before & after & -> & Hid & Hbefore).
    apply first_match_split; [|by apply bool_decide_eq_true].
    intros x Hx. apply bool_decide_eq_false. auto.
  - intros Hnone x Hx. rewrite first_match_None in Hnone.
    specialize (Hnone x Hx). by apply bool_decide_eq_false in Hnone.
  - intros Hall. apply first_match_None. intros x Hx.
    apply bool_decide_eq_false. auto.
Qed.

Lemma filter_same_length {A} (P : A → Prop) `{∀ x, Decision (P x)}
    (l : list A) :
  length (filter P l) = length l → filter P l = l.
Proof.
  induction l as [|x l IH]; [done|]. rewrite filter_cons.
  destruct (decide (P x)); simpl.
  - intros [= Hlen]. f_equal. by apply IH.
  - intros Hlen. pose proof (length_filter P l). lia.
Qed.

Lemma save_data_same (w : World) :
  save_data HOTELS_FILE (hotels_json w) w = w
  ∧ save_data CUSTOMERS_FILE (customers_json w) w = w
  ∧ save_data RESERVATIONS_FILE (reservations_json w) w = w.
Proof. by destruct w. Qed.

(** X4.  [create_hotel] returns a hotel with the given name, location and
    total, all rooms available, and appends its record to the stored
    hotels, leaving the other records, the customers and the reservations
    as they are.  When the id drawn is not stored yet, [get_hotel] of the
    new id returns the hotel created; lookups of other ids are not
    affected. *)
Theorem create_hotel_then_get (name location : string) (total : Z)
    (w : World) :
  (∀ r, r ∈ hotels_json w → hotel_id r ≠ pretty (uuid_drawn w)) →
  let created := Hotel.create_hotel name location total w in
  created.1 = mkHotel (pretty (uuid_drawn w)) name location total total
  ∧ hotels_json created.2 = hotels_json w ++ [created.1]
  ∧ customers_json created.2 = customers_json w
  ∧ reservations_json created.2 = reservations_json w
  ∧ Hotel.get_hotel (hotel_id created.1) created.2 = Some created.1
  ∧ ∀ other, other ≠ hotel_id created.1 →
             Hotel.get_hotel other created.2 = Hotel.get_hotel other w.
Proof.
  intros Hfresh created. subst created.
  unfold Hotel.create_hotel, Hotel.get_hotel, load_data. simpl.
  repeat split.
  - rewrite first_match_snoc. simpl.
    assert (first_match
              (λ h, bool_decide (hotel_id h = pretty (uuid_drawn w)))
              (hotels_json w) = None) as ->.
    { apply first_match_None. intros x Hx. apply bool_decide_eq_false. auto. }
    by rewrite bool_decide_eq_true_2.
  - intros other Hother. rewrite first_match_snoc. simpl.
    destruct (first_match _ (hotels_json w)); [done|].
    by rewrite bool_decide_eq_false_2.
Qed.

Lemma create_hotel_then_get_witness :
  let w := mkWorld [mkHotel "0" "Hotel A" "City A" 5 2] [] [] 1%nat in
  let created := Hotel.create_hotel "Test Hotel" "Test City" 10 w in
  created.1 = mkHotel "1" "Test Hotel" "Test City" 10 10
  ∧ Hotel.get_hotel "1" created.2 = Some created.1.
Proof.
  intros w created.
  destruct (create_hotel_then_get "Test Hotel" "Test City" 10 w)
    as (Hnew & _ & _ & _ & Hget & _).
  - intros r Hr. apply list_elem_of_singleton in Hr as ->. done.
  - split; [exact Hnew | exact Hget].
Defined.

(** X5.  [create_customer] returns a customer with the given name, email
    and phone and appends its record to the stored customers, leaving the
    other records, the hotels and the reservations as they are.  When the
    id drawn is not stored yet, [get_customer] of the new id returns the
    customer created; lookups of other ids are not affected. *)
Theorem create_customer_then_get (name email phone : string) (w : World) :
  (∀ r, r ∈ customers_json w → customer_id r ≠ pretty (uuid_drawn w)) →
  let created := Customer.create_customer name email phone w in
  created.1 = mkCustomer (pretty (uuid_drawn w)) name email phone
  ∧ customers_json created.2 = customers_json w ++ [created.1]
  ∧ hotels_json created.2 = hotels_json w
  ∧ reservations_json created.2 = reservations_json w
  ∧ Customer.get_customer (customer_id created.1) created.2 = Some created.1
  ∧ ∀ other, other ≠ customer_id created.1 →
             Customer.get_customer other created.2
             = Customer.get_customer other w.
Proof.
  intros Hfresh created. subst created.
  unfold Customer.create_customer, Customer.get_customer, load_data. simpl.
  repeat split.
  - rewrite first_match_snoc. simpl.
    assert (first_match
              (λ c, bool_decide (customer_id c = pretty (uuid_drawn w)))
              (customers_json w) = None) as ->.
    { apply first_match_None. intros x Hx. apply bool_decide_eq_false. auto. }
    by rewrite bool_decide_eq_true_2.
  - intros other Hother. rewrite first_match_snoc. simpl.
    destruct (first_match _ (customers_json w)); [done|].
    by rewrite bool_decide_eq_false_2.
Qed.

Lemma create_customer_then_get_witness :
  let w := mkWorld [] [mkCustomer "0" "Ana" "ana@example.com" "555"] []
                   1%nat in
  let created :=
    Customer.create_customer "John Doe" "john@example.com" "1234567890" w in
  created.1 = mkCustomer "1" "John Doe" "john@example.com" "1234567890"
  ∧ Customer.get_customer "1" created.2 = Some created.1.
Proof.
  intros w created.
  destruct (create_customer_then_get "John Doe" "john@example.com"
              "1234567890" w) as (Hnew & _ & _ & _ & Hget & _).
  - intros r Hr. apply list_elem_of_singleton in Hr as ->. done.
  - split; [exact Hnew | exact Hget].
Defined.

(** X6.  [delete_hotel] removes every stored hotel with the id and keeps
    the others in order, so lookups of other ids are not affected; it does
    not cascade: customers and reservations, also those of the hotel
    deleted, stay.  When no stored hotel has the id the world is
    unchanged, and deleting a second time changes nothing. *)
Theorem delete_hotel_removes_only_that_id (ident : string) (w : World) :
  let w' := Hotel.delete_hotel ident w in
  hotels_json w' = filter (λ h, hotel_id h ≠ ident) (hotels_json w)
  ∧ (∀ other, other ≠ ident →
              Hotel.get_hotel other w' = Hotel.get_hotel other w)
  ∧ customers_json w' = customers_json w
  ∧ reservations_json w' = reservations_json w
  ∧ ((∀ h, h ∈ hotels_json w → hotel_id h ≠ ident) → w' = w)
  ∧ Hotel.delete_hotel ident w' = w'.
Proof.
  intros w'.
  assert (Hhotels : hotels_json w'
                    = filter (λ h, hotel_id h ≠ ident) (hotels_json w)).
  { subst w'. unfold Hotel.delete_hotel, load_data. simpl.
    case_decide as Hlen; [|done]. by rewrite filter_same_length. }
  assert (Hrest : customers_json w' = customers_json w
                  ∧ reservations_json w' = reservations_json w).
  { subst w'. unfold Hotel.delete_hotel, load_data. simpl.
    by case_decide. }
  assert (Hagain : ∀ v, (∀ h, h ∈ hotels_json v → hotel_id h ≠ ident) →
                        Hotel.delete_hotel ident v = v).
  { intros v Hnone. unfold Hotel.delete_hotel, load_data. simpl.
    case_decide as Hlen; [done|]. destruct Hlen. f_equal.
    clear -Hnone. induction (hotels_json v) as [|x l IH]; [done|].
    rewrite filter_cons.
    rewrite decide_True by (apply Hnone, list_elem_of_here).
    f_equal. apply IH. intros h Hh. apply Hnone.
    by apply list_elem_of_further. }
  split; [done|]. split; [|split; [apply Hrest|split; [apply Hrest|split]]].
  - intros other Hother. unfold Hotel.get_hotel, load_data. simpl.
    rewrite Hhotels. apply first_match_filter.
    intros x Hx. apply bool_decide_eq_true in Hx. congruence.
  - apply Hagain.
  - apply Hagain. rewrite Hhotels. intros h Hh.
    by apply list_elem_of_filter in Hh as [? _].
Qed.

(** X7.  [delete_customer] removes every stored customer with the id and
    keeps the others in order, so lookups of other ids are not affected;
    hotels and reservations, also those of the customer deleted, stay.
    When no stored customer has the id the world is unchanged, and
    deleting a second time changes nothing. *)
Theorem delete_customer_removes_only_that_id (ident : string) (w : World) :
  let w' := Customer.delete_customer ident w in
  customers_json w' = filter (λ c, customer_id c ≠ ident) (customers_json w)
  ∧ (∀ other, other ≠ ident →
              Customer.get_customer other w' = Customer.get_customer other w)
  ∧ hotels_json w' = hotels_json w
  ∧ reservations_json w' = reservations_json w
  ∧ ((∀ c, c ∈ customers_json w → customer_id c ≠ ident) → w' = w)
  ∧ Customer.delete_customer ident w' = w'.
Proof.
  intros w'.
  assert (Hcustomers : customers_json w'
            = filter (λ c, customer_id c ≠ ident) (customers_json w)).
  { subst w'. unfold Customer.delete_customer, load_data. simpl.
    case_decide as Hlen; [|done]. by rewrite filter_same_length. }
  assert (Hrest : hotels_json w' = hotels_json w
                  ∧ reservations_json w' = reservations_json w).
  { subst w'. unfold Customer.delete_customer, load_data. simpl.
    by case_decide. }
  assert (Hagain : ∀ v, (∀ c, c ∈ customers_json v → customer_id c ≠ ident) →
                        Customer.delete_customer ident v = v).
  { intros v Hnone. unfold Customer.delete_customer, load_data. simpl.
    case_decide as Hlen; [done|]. destruct Hlen. f_equal.
    clear -Hnone. induction (customers_json v) as [|x l IH]; [done|].
    rewrite filter_cons.
    rewrite decide_True by (apply Hnone, list_elem_of_here).
    f_equal. apply IH. intros c Hc. apply Hnone.
    by apply list_elem_of_further. }
  split; [done|]. split; [|split; [apply Hrest|split; [apply Hrest|split]]].
  - intros other Hother. unfold Customer.get_customer, load_data. simpl.
    rewrite Hcustomers. apply first_match_filter.
    intros x Hx. apply bool_decide_eq_true in Hx. congruence.
  - apply Hagain.
  - apply Hagain. rewrite Hcustomers. intros c Hc.
    by apply list_elem_of_filter in Hc as [? _].
Qed.

(** ** Updates and what they store *)

Lemma if_truthy_value {A} (arg : option string) (assign : string → A → A)
    (self : A) :
  if_truthy arg assign self
  = match arg with
    | Some v => if decide (v = "") then self else assign v self
    | None => self
    end.
Proof.
  destruct arg as [v|]; simpl; [|done].
  case_bool_decide; case_decide; done.
Qed.

(** X8.  [Hotel.modify_info] keeps the id, sets [name] and [location] to
    the arguments that are non-empty strings and keeps them otherwise,
    and with [total_rooms] omitted keeps both room counts.  A name or a
    location can therefore never be set to the empty string. *)
Theorem hotel_modify_info_fields (self : Hotel)
    (name' location' : option string) (total_rooms' : option Z) (w : World) :
  let self' := (Hotel.modify_info self name' location' total_rooms' w).1 in
  hotel_id self' = hotel_id self
  ∧ name self' = match name' with
                 | Some v => if decide (v = "") then name self else v
                 | None => name self
                 end
  ∧ location self' = match location' with
                     | Some v => if decide (v = "") then location self else v
                     | None => location self
                     end
  ∧ (total_rooms' = None →
     total_rooms self' = total_rooms self
     ∧ available_rooms self' = available_rooms self)
  ∧ (name self ≠ "" → name self' ≠ "")
  ∧ (location self ≠ "" → location self' ≠ "").
Proof.
  intros self'. subst self'. unfold Hotel.modify_info. simpl.
  rewrite !if_truthy_value.
  destruct name' as [n|], location' as [l|], total_rooms' as [t|]; simpl;
    repeat case_decide; simpl; repeat split; try done; congruence.
Qed.

(** X9.  [Hotel.modify_info] stores the instance over the first stored
    record with its id and touches no other record: lookups of other ids,
    the number of stored hotels, the customers and the reservations are
    as before.  When no record with the id is stored (the hotel was
    deleted), nothing is stored: the update stays in the instance only and
    the world is unchanged. *)
Theorem hotel_modify_info_persists (self : Hotel)
    (name' location' : option string) (total_rooms' : option Z) (w : World) :
  let r := Hotel.modify_info self name' location' total_rooms' w in
  Hotel.get_hotel (hotel_id self) r.2
  = (λ _, r.1) <$> Hotel.get_hotel (hotel_id self) w
  ∧ (∀ other, other ≠ hotel_id self →
              Hotel.get_hotel other r.2 = Hotel.get_hotel other w)
  ∧ length (hotels_json r.2) = length (hotels_json w)
  ∧ customers_json r.2 = customers_json w
  ∧ reservations_json r.2 = reservations_json w
  ∧ (Hotel.get_hotel (hotel_id self) w = None → r.2 = w).
Proof.
  intros r. subst r.
  pose proof (modify_info_effect self name' location' total_rooms' w) as Heff.
  cbv zeta in Heff.
  set (self' := (Hotel.modify_info self name' location' total_rooms' w).1)
    in *.
  destruct Heff as (Hcall & Hid & _). rewrite Hcall. clearbody self'.
  unfold Hotel.get_hotel, load_data. simpl.
  split; [|split; [|split; [|split; [done|split; [done|]]]]].
  - rewrite first_match_update_first; [done|].
    intros x Hx. apply bool_decide_eq_true in Hx.
    apply bool_decide_eq_true. congruence.
  - intros other Hother. apply first_match_update_first_other.
    intros x Hx. apply bool_decide_eq_true in Hx.
    split; apply bool_decide_eq_false; congruence.
  - apply update_first_length.
  - intros Hnone. rewrite update_first_no_match.
    + apply save_data_same.
    + by apply first_match_None.
Qed.

(** X10.  [Customer.modify_info] keeps the id, sets [name], [email] and
    [phone] to the arguments that are non-empty strings and keeps them
    otherwise, stores the instance over the first stored record with its
    id and touches nothing else; when no record with the id is stored the
    world is unchanged. *)
Theorem customer_modify_info_behaviour (self : Customer)
    (name' email' phone' : option string) (w : World) :
  let r := Customer.modify_info self name' email' phone' w in
  let keep_or (old : string) (arg : option string) :=
    match arg with
    | Some v => if decide (v = "") then old else v
    | None => old
    end in
  r.1 = mkCustomer (customer_id self)
                   (keep_or (customer_name self) name')
                   (keep_or (email self) email')
                   (keep_or (phone self) phone')
  ∧ Customer.get_customer (customer_id self) r.2
    = (λ _, r.1) <$> Customer.get_customer (customer_id self) w
  ∧ (∀ other, other ≠ customer_id self →
              Customer.get_customer other r.2
              = Customer.get_customer other w)
  ∧ length (customers_json r.2) = length (customers_json w)
  ∧ hotels_json r.2 = hotels_json w
  ∧ reservations_json r.2 = reservations_json w
  ∧ (Customer.get_customer (customer_id self) w = None → r.2 = w).
Proof.
  intros r keep_or. subst r keep_or.
  unfold Customer.modify_info. simpl. rewrite !if_truthy_value.
  set (self' := match phone' with
                | Some v => if decide (v = "") then _ else _
                | None => _
                end).
  assert (Hself : self' = mkCustomer (customer_id self)
            (match name' with
             | Some v => if decide (v = "") then customer_name self else v
             | None => customer_name self
             end)
            (match email' with
             | Some v => if decide (v = "") then email self else v
             | None => email self
             end)
            (match phone' with
             | Some v => if decide (v = "") then phone self else v
             | None => phone self
             end)).
  { subst self'. destruct self as [i n e p].
    destruct name' as [a|], email' as [b|], phone' as [c|]; simpl;
      repeat case_decide; done. }
  assert (Hid : customer_id self' = customer_id self) by by rewrite Hself.
  clearbody self'. rewrite Hid.
  unfold Customer.get_customer, load_data. simpl.
  split; [done|].
  split; [|split; [|split; [|split; [done|split; [done|]]]]].
  - rewrite first_match_update_first; [done|].
    intros x Hx. apply bool_decide_eq_true in Hx.
    apply bool_decide_eq_true. congruence.
  - intros other Hother. apply first_match_update_first_other.
    intros x Hx. apply bool_decide_eq_true in Hx.
    split; apply bool_decide_eq_false; congruence.
  - apply update_first_length.
  - intros Hnone. rewrite update_first_no_match.
    + apply save_data_same.
    + by apply first_match_None.
Qed.

(** X11.  Changing [total_rooms] to [t] and then back to the old total
    leaves the total as it was and [available_rooms] at the largest of
    zero, its old value and [old total - t]: the floor applied on the way
    down is not undone on the way up.  On an instance in range the old
    value comes back exactly when [t] is at least the number of rooms in
    use, [total_rooms - available_rooms]; below that, the rooms in use
    drop to [t]. *)
Theorem resize_and_back_available_rooms (self : Hotel) (t : Z) (w : World) :
  let self' := (resize_and_back self t w).1 in
  total_rooms self' = total_rooms self
  ∧ available_rooms self'
    = Z.max 0 (Z.max (available_rooms self) (total_rooms self - t))
  ∧ (0 ≤ available_rooms self →
     (available_rooms self' = available_rooms self
      ↔ total_rooms self - available_rooms self ≤ t)
     ∧ (t < total_rooms self - available_rooms self →
        total_rooms self' - available_rooms self' = t)).
Proof.
  intros self'. subst self'. unfold resize_and_back.
  pose proof (modify_info_effect self None None (Some t) w) as H1.
  cbv zeta in H1.
  destruct (Hotel.modify_info self None None (Some t) w) as [s1 w1].
  simpl in H1. destruct H1 as (_ & _ & Ht1 & Ha1).
  pose proof (modify_info_effect s1 None None (Some (total_rooms self)) w1)
    as H2.
  cbv zeta in H2. destruct H2 as (_ & _ & Ht2 & Ha2).
  rewrite Ht2, Ha2, Ha1, Ht1. simpl. lia.
Qed.

(** What the update loop of [reserve_room] and [cancel_room] stores. *)
Lemma room_write_effect (self : Hotel) (v : Z) (w : World) :
  let w' := save_data HOTELS_FILE
              (update_first (λ x, bool_decide (hotel_id x = hotel_id self))
                            (set_available_rooms v) (hotels_json w)) w in
  Hotel.get_hotel (hotel_id self) w'
  = set_available_rooms v <$> Hotel.get_hotel (hotel_id self) w
  ∧ (∀ other, other ≠ hotel_id self →
              Hotel.get_hotel other w' = Hotel.get_hotel other w)
  ∧ customers_json w' = customers_json w
  ∧ reservations_json w' = reservations_json w
  ∧ (Hotel.get_hotel (hotel_id self) w = None → w' = w).
Proof.
  intros w'. subst w'. unfold Hotel.get_hotel, load_data. simpl.
  split; [|split; [|split; [done|split; [done|]]]].
  - rewrite first_match_update_first; [done|].
    intros x Hx. apply bool_decide_eq_true in Hx.
    by apply bool_decide_eq_true.
  - intros other Hother. apply first_match_update_first_other.
    intros x Hx. apply bool_decide_eq_true in Hx.
    split; apply bool_decide_eq_false; simpl; congruence.
  - intros Hnone. rewrite update_first_no_match.
    + apply save_data_same.
    + by apply first_match_None.
Qed.

(** X12.  A successful [reserve_room] or [cancel_room] writes the count of
    the instance, not a change of the stored count: the first stored
    record with the id gets the instance's new [available_rooms], whatever
    it held, and keeps its other fields.  Other stored hotels, the
    customers and the reservations are not touched, and when no record
    with the id is stored the world is unchanged. *)
Theorem room_calls_store_instance_count (self : Hotel) (w : World) :
  let ident := hotel_id self in
  let a := available_rooms self in
  (0 < a →
   let r := Hotel.reserve_room self w in
   r.1 = (true, set_available_rooms (a - 1) self)
   ∧ Hotel.get_hotel ident r.2
     = set_available_rooms (a - 1) <$> Hotel.get_hotel ident w
   ∧ (∀ other, other ≠ ident →
               Hotel.get_hotel other r.2 = Hotel.get_hotel other w)
   ∧ customers_json r.2 = customers_json w
   ∧ reservations_json r.2 = reservations_json w
   ∧ (Hotel.get_hotel ident w = None → r.2 = w))
  ∧ (a < total_rooms self →
     let r := Hotel.cancel_room self w in
     r.1 = (true, set_available_rooms (a + 1) self)
     ∧ Hotel.get_hotel ident r.2
       = set_available_rooms (a + 1) <$> Hotel.get_hotel ident w
     ∧ (∀ other, other ≠ ident →
                 Hotel.get_hotel other r.2 = Hotel.get_hotel other w)
     ∧ customers_json r.2 = customers_json w
     ∧ reservations_json r.2 = reservations_json w
     ∧ (Hotel.get_hotel ident w = None → r.2 = w)).
Proof.
  intros ident a. subst ident a.
  pose proof (room_write_effect self) as Hwrite.
  split.
  - intros Hpos r. subst r.
    destruct (reserve_room_effect self w) as [[Hle _]|[_ ->]]; [lia|].
    split; [done|]. apply Hwrite.
  - intros Hlt r. subst r.
    destruct (cancel_room_effect self w) as [[Hle _]|[_ ->]]; [lia|].
    split; [done|]. apply Hwrite.
Qed.

(** X13.  [k] calls of [reserve_room] in a row on an instance with
    [a >= 0] available rooms succeed [min k a] times and leave
    [max 0 (a - k)] rooms available: once the rooms are used up every
    further call fails, and the count never goes below zero.  The id and
    the total are kept. *)
Theorem reserve_rooms_count (k : nat) (self : Hotel) (w : World) :
  0 ≤ available_rooms self →
  let r := reserve_rooms k self w in
  Z.of_nat r.1.1 = Z.min (Z.of_nat k) (available_rooms self)
  ∧ available_rooms r.1.2 = Z.max 0 (available_rooms self - Z.of_nat k)
  ∧ total_rooms r.1.2 = total_rooms self
  ∧ hotel_id r.1.2 = hotel_id self.
Proof.
  revert self w. induction k as [|k IH]; intros self w Hnonneg; simpl.
  { repeat split; lia. }
  destruct (reserve_room_effect self w) as [[Hle ->]|[Hpos ->]].
  - specialize (IH self w Hnonneg). simpl in IH.
    destruct (reserve_rooms k self w) as [[n s'] w']. simpl in *.
    destruct IH as (Hn & Ha & Ht & Hi). repeat split; try done; lia.
  - set (s1 := set_available_rooms (available_rooms self - 1) self).
    set (w1 := save_data HOTELS_FILE _ w).
    assert (Hs1 : 0 ≤ available_rooms s1) by (simpl; lia).
    specialize (IH s1 w1 Hs1). simpl in IH.
    destruct (reserve_rooms k s1 w1) as [[n s'] w']. simpl in *.
    destruct IH as (Hn & Ha & Ht & Hi). repeat split; try done; lia.
Qed.

Lemma reserve_rooms_count_witness :
  let hotel := mkHotel "0" "Hotel Reserve" "City" 2 2 in
  let r := reserve_rooms 5 hotel (mkWorld [hotel] [] [] 1%nat) in
  Z.of_nat r.1.1 = 2 ∧ available_rooms r.1.2 = 0.
Proof.
  intros hotel r.
  destruct (reserve_rooms_count 5 hotel (mkWorld [hotel] [] [] 1%nat))
    as (Hn & Ha & _); [simpl; lia|].
  split; [exact Hn | exact Ha].
Defined.

(** X14.  [create_reservation] returns a reservation exactly when the
    first argument is a [Customer], the second a [Hotel] and the hotel
    instance has a room available.  It then carries a new id, the ids of
    the two instances and the date of the call, and is appended to the
    stored reservations; the hotel instance has one room less; the stored
    customers are not touched.  Whether the customer or the hotel is
    stored at all is never looked up. *)
Theorem create_reservation_succeeds_iff
    (customer_instance hotel_instance : pyobj) (now : string) (w : World) :
  let result :=
    Reservation.create_reservation customer_instance hotel_instance now w in
  (is_Some result.1.1
   ↔ ∃ customer hotel,
       customer_instance = PyCustomer customer
       ∧ hotel_instance = PyHotel hotel
       ∧ 0 < available_rooms hotel)
  ∧ (∀ customer hotel,
       customer_instance = PyCustomer customer →
       hotel_instance = PyHotel hotel →
       0 < available_rooms hotel →
       let r := mkReservation (pretty (uuid_drawn w)) (customer_id customer)
                              (hotel_id hotel) now in
       result.1 = (Some r,
                   PyHotel (set_available_rooms (available_rooms hotel - 1)
                                                hotel))
       ∧ reservations_json result.2 = reservations_json w ++ [r]
       ∧ customers_json result.2 = customers_json w
       ∧ hotels_json result.2
         = hotels_json (Hotel.reserve_room hotel w).2
       ∧ uuid_drawn result.2 = S (uuid_drawn w)).
Proof.
  intros result. subst result. split; [split|].
  - intros [r Hr].
    destruct (Reservation.create_reservation _ _ now w) as [[res h'] w']
      eqn:Hcall. simpl in Hr. subst res.
    destruct (create_reservation_Some customer_instance hotel_instance now w r)
      as (customer & hotel & -> & -> & Hpos & _); [by rewrite Hcall|].
    by exists customer, hotel.
  - intros (customer & hotel & -> & -> & Hpos). simpl.
    destruct (reserve_room_effect hotel w) as [[Hle _]|[_ ->]]; [lia|].
    simpl. by eexists.
  - intros customer hotel -> -> Hpos r. simpl.
    destruct (reserve_room_effect hotel w) as [[Hle _]|[_ ->]]; [lia|].
    simpl. done.
Qed.

Lemma filter_all {A} (P : A → Prop) `{∀ x, Decision (P x)} (l : list A) :
  (∀ x, x ∈ l → P x) → filter P l = l.
Proof.
  intros Hall. induction l as [|x l IH]; [done|]. rewrite filter_cons.
  rewrite decide_True by (apply Hall, list_elem_of_here).
  f_equal. apply IH. intros y Hy. apply Hall. by apply list_elem_of_further.
Qed.

(** X15.  Booking and cancelling at once gives the room back in storage
    but not in the instance.  For a hotel instance in range with a room
    available that agrees with its stored record, [create_reservation]
    followed by [cancel_reservation] of the id returned succeeds and leaves
    the three stored collections exactly as they were, one more id being
    drawn; the instance the caller holds still counts one room less, since
    the cancellation works on a copy loaded from storage. *)
Theorem book_and_cancel_restores_storage (customer : Customer)
    (hotel : Hotel) (now : string) (w : World) :
  0 < available_rooms hotel ≤ total_rooms hotel →
  Hotel.get_hotel (hotel_id hotel) w = Some hotel →
  (∀ r, r ∈ reservations_json w → reservation_id r ≠ pretty (uuid_drawn w)) →
  book_and_cancel customer hotel now w
  = (Some true,
     PyHotel (set_available_rooms (available_rooms hotel - 1) hotel),
     mkWorld (hotels_json w) (customers_json w) (reservations_json w)
             (S (uuid_drawn w))).
Proof.
  intros [Hpos Hle] Hstored Hfresh. unfold book_and_cancel. simpl.
  destruct (reserve_room_effect hotel w) as [[Hno _]|[_ ->]]; [lia|].
  simpl. unfold Reservation.cancel_reservation, load_data. simpl.
  rewrite first_match_snoc.
  assert (first_match
            (λ r, bool_decide (reservation_id r = pretty (uuid_drawn w)))
            (reservations_json w) = None) as ->.
  { apply first_match_None. intros x Hx. apply bool_decide_eq_false. auto. }
  simpl. rewrite bool_decide_eq_true_2 by done. simpl.
  unfold Hotel.get_hotel, load_data in *. simpl in Hstored. simpl.
  apply first_match_Some_split in Hstored
    as (before & after & Hsplit & Hid & Hbefore).
  rewrite Hsplit.
  rewrite (update_first_split _ _ before hotel after Hbefore Hid).
  rewrite (first_match_split _ before _ after Hbefore)
    by (apply bool_decide_eq_true; done).
  simpl.
  destruct (cancel_room_effect
              (set_available_rooms (available_rooms hotel - 1) hotel)
              (mkWorld
                 (before
                  ++ set_available_rooms (available_rooms hotel - 1) hotel
                     :: after)
                 (customers_json w)
                 (reservations_json w
                  ++ [mkReservation (pretty (uuid_drawn w))
                        (customer_id customer) (hotel_id hotel) now])
                 (S (uuid_drawn w))))
    as [[Hno _]|[_ ->]]; [simpl in Hno; lia|].
  simpl. f_equal. f_equal.
  - rewrite update_first_split; [|done|by apply bool_decide_eq_true].
    destruct hotel as [i n l t a]. unfold set_available_rooms. simpl.
    do 3 f_equal. lia.
  - rewrite filter_app, filter_all by auto.
    rewrite filter_cons, decide_False by (simpl; auto).
    by rewrite filter_nil, app_nil_r.
Qed.

Lemma book_and_cancel_restores_storage_witness :
  let hotel := mkHotel "0" "Res Hotel" "Res City" 1 1 in
  let customer := mkCustomer "1" "Res Customer" "res@example.com" "111" in
  let w := mkWorld [hotel] [customer] [] 2%nat in
  book_and_cancel customer hotel "2024-01-01 00:00:00" w
  = (Some true, PyHotel (mkHotel "0" "Res Hotel" "Res City" 1 0),
     mkWorld [hotel] [customer] [] 3%nat).
Proof.
  intros hotel customer w.
  apply (book_and_cancel_restores_storage customer hotel
           "2024-01-01 00:00:00" w).
  - simpl. lia.
  - reflexivity.
  - intros r Hr. inversion Hr.
Defined.

(** X16.  When the hotel of a stored reservation is stored with fewer
    rooms available than its total, [cancel_reservation] returns [True],
    raises the stored [available_rooms] of that hotel by one and keeps its
    other fields, leaves every other stored hotel and the customers as
    they are, and filters the reservation out. *)
Theorem cancel_reservation_restores_room (reservation_id' : string)
    (w : World) (r : Reservation) (hotel : Hotel) :
  first_match (λ r, bool_decide (reservation_id r = reservation_id'))
              (reservations_json w) = Some r →
  Hotel.get_hotel (reservation_hotel_id r) w = Some hotel →
  available_rooms hotel < total_rooms hotel →
  let result := Reservation.cancel_reservation reservation_id' w in
  result.1 = true
  ∧ Hotel.get_hotel (reservation_hotel_id r) result.2
    = Some (set_available_rooms (available_rooms hotel + 1) hotel)
  ∧ (∀ other, other ≠ reservation_hotel_id r →
              Hotel.get_hotel other result.2 = Hotel.get_hotel other w)
  ∧ customers_json result.2 = customers_json w
  ∧ reservations_json result.2
    = filter (λ r, reservation_id r ≠ reservation_id') (reservations_json w).
Proof.
  intros Hr Hh Hlt result. subst result.
  unfold Reservation.cancel_reservation, load_data. simpl.
  rewrite Hr. simpl. rewrite Hh.
  assert (Hid : hotel_id hotel = reservation_hotel_id r).
  { unfold Hotel.get_hotel in Hh. apply first_match_Some in Hh as [_ Hid].
    by apply bool_decide_eq_true in Hid. }
  destruct (cancel_room_effect hotel w) as [[Hno _]|[_ ->]]; [lia|].
  destruct (room_write_effect hotel (available_rooms hotel + 1) w)
    as (Hget & Hother & Hcust & _).
  rewrite Hid, Hh in Hget. rewrite Hid in Hother, Hcust.
  unfold Hotel.get_hotel, load_data in *. simpl in *. rewrite Hid.
  repeat split; done.
Qed.

Lemma cancel_reservation_restores_room_witness :
  let hotel := mkHotel "0" "Res Hotel" "Res City" 1 0 in
  let r := mkReservation "2" "1" "0" "2024-01-01 00:00:00" in
  let w := mkWorld [hotel] [] [r] 3%nat in
  (Reservation.cancel_reservation "2" w).1 = true
  ∧ Hotel.get_hotel "0" (Reservation.cancel_reservation "2" w).2
    = Some (mkHotel "0" "Res Hotel" "Res City" 1 1).
Proof.
  intros hotel r w.
  destruct (cancel_reservation_restores_room "2" w r hotel)
    as (Hok & Hget & _); [reflexivity | reflexivity | simpl; lia |].
  split; [exact Hok | exact Hget].
Defined.

(** ** Sessions: what holds after every sequence of calls *)

Lemma no_room_overbooked_step (s : Session) (c : call) :
  creates_no_negative_total c →
  no_room_overbooked s → no_room_overbooked (step s c).
Proof.
  destruct s as [w objects customers]. unfold no_room_overbooked.
  cbn [world hotel_objects customer_objects].
  intros Htotal [Hobjs Hrecs].
  assert (Hobj : ∀ i h, objects !! i = Some h → 0 ≤ available_rooms h).
  { intros i h Hi. rewrite Forall_forall in Hobjs.
    eapply Hobjs, list_elem_of_lookup_2, Hi. }
  assert (Hrec : ∀ ident h, Hotel.get_hotel ident w = Some h →
                            0 ≤ available_rooms h).
  { intros ident h Hh. apply first_match_Some in Hh as [Hin _].
    rewrite Forall_forall in Hrecs. by apply Hrecs. }
  assert (Hwrite : ∀ ident v, 0 ≤ v →
            Forall (λ h, 0 ≤ available_rooms h)
              (update_first (λ x, bool_decide (hotel_id x = ident))
                            (set_available_rooms v) (hotels_json w))).
  { intros ident v Hv. by apply Forall_update_first. }
  destruct c;
    cbn [step world hotel_objects customer_objects
         creates_no_negative_total] in *.
  - (* create_hotel *)
    unfold Hotel.create_hotel, load_data. simpl.
    split; (apply Forall_app; split; [done|]); by constructor.
  - (* delete_hotel *)
    unfold Hotel.delete_hotel, load_data. simpl. split; [done|].
    case_decide; [done|]. simpl.
    rewrite Forall_forall in Hrecs. apply Forall_forall. intros h Hh.
    apply list_elem_of_filter in Hh as [_ Hh]. auto.
  - (* get_hotel *)
    destruct (Hotel.get_hotel hotel_id' w) as [h|] eqn:Hget; [|done].
    simpl. split; [|done]. apply Forall_app. split; [done|].
    constructor; [|done]. eauto.
  - (* Hotel.modify_info *)
    destruct (objects !! self) as [h|] eqn:Hself; [|done].
    pose proof (modify_info_effect h name' location' total_rooms' w) as Heff.
    cbv zeta in Heff.
    set (h' := (Hotel.modify_info h name' location' total_rooms' w).1) in Heff.
    clearbody h'. destruct Heff as (-> & _ & _ & Hav). simpl.
    assert (0 ≤ available_rooms h').
    { rewrite Hav. specialize (Hobj self h Hself).
      destruct total_rooms'; lia. }
    split; [by apply Forall_insert | by apply Forall_update_first].
  - (* reserve_room *)
    destruct (objects !! self) as [h|] eqn:Hself; [|done].
    destruct (reserve_room_effect h w) as [[_ ->]|[Hpos ->]]; simpl.
    + by rewrite list_insert_id.
    + split; [apply Forall_insert; [done|simpl; lia] | apply Hwrite; lia].
  - (* cancel_room *)
    destruct (objects !! self) as [h|] eqn:Hself; [|done].
    specialize (Hobj self h Hself).
    destruct (cancel_room_effect h w) as [[_ ->]|[Hlt ->]]; simpl.
    + by rewrite list_insert_id.
    + split; [apply Forall_insert; [done|simpl; lia] | apply Hwrite; lia].
  - (* create_customer *) unfold Customer.create_customer. by simpl.
  - (* delete_customer *)
    unfold Customer.delete_customer, load_data. simpl. by case_decide.
  - (* get_customer *)
    by destruct (Customer.get_customer customer_id' w).
  - (* Customer.modify_info *)
    destruct (customers !! self); [|done].
    unfold Customer.modify_info. by simpl.
  - (* create_reservation *)
    set (s := mkSession w objects customers).
    destruct (Reservation.create_reservation (resolve s customer_instance)
                (resolve s hotel_instance) now w)
      as [[result hotel_after] w'] eqn:Hcall.
    cbn [world hotel_objects].
    destruct result as [r|].
    + destruct (create_reservation_Some (resolve s customer_instance)
                  (resolve s hotel_instance) now w r)
        as (customer & h & _ & Hh & Hpos & Hroom & _ & Hfull);
        [by rewrite Hcall|].
      rewrite Hcall in Hfull. injection Hfull as -> ->.
      destruct (reserve_room_effect h w) as [[Hno _]|[_ Heq]]; [lia|].
      rewrite Heq. simpl.
      split; [|apply Hwrite; lia].
      destruct hotel_instance as [v|ref|ref]; simpl; try done.
      apply Forall_insert; [done|simpl; lia].
    + assert (w' = w ∧ hotel_after = resolve s hotel_instance) as [-> ->].
      { revert Hcall.
        destruct (resolve s customer_instance) as [| | | |customer|];
          destruct (resolve s hotel_instance) as [| | |h0| |]; simpl;
          try (by intros [= <- <-]).
        destruct (reserve_room_effect h0 w) as [[_ ->]|[_ ->]]; simpl;
          [by intros [= <- <-] | done]. }
      split; [|done].
      destruct hotel_instance as [v|ref|ref]; simpl; try done.
      destruct (objects !! ref) eqn:Href; simpl; [|done].
      by rewrite list_insert_id.
  - (* cancel_reservation *)
    unfold Reservation.cancel_reservation, load_data. simpl.
    destruct (first_match _ (reservations_json w)) as [r|]; simpl; [|done].
    destruct (Hotel.get_hotel (reservation_hotel_id r) w) as [h|] eqn:Hget;
      simpl; [|done].
    specialize (Hrec _ h Hget).
    destruct (cancel_room_effect h w) as [[_ ->]|[Hlt ->]]; simpl; [done|].
    split; [done | apply Hwrite; lia].
Qed.

(** X17.  Started on an empty data directory, after every sequence of
    calls, [get_hotel] and negative [total_rooms] given to [modify_info]
    included, no hotel instance and no stored hotel has a negative number
    of available rooms, as long as [create_hotel] is not given a negative
    total: the guard of [reserve_room] and the floor of [modify_info] hold
    even through stale second instances. *)
Theorem available_rooms_never_negative (calls : list call) :
  Forall creates_no_negative_total calls →
  no_room_overbooked (run calls start).
Proof.
  induction calls as [|c calls IH] using rev_ind; intros Hcalls.
  { split; constructor. }
  apply Forall_app in Hcalls as [Hcalls Hc]. rewrite run_snoc.
  apply no_room_overbooked_step; [by inversion Hc | by apply IH].
Qed.

Lemma available_rooms_never_negative_witness :
  let calls := [CreateHotel "Hotel A" "City A" 5;
                GetHotel "0";
                HotelModifyInfo 1 None None (Some (-3));
                ReserveRoom 0;
                CancelRoom 1] in
  hotels_json (world (run calls start)) = [mkHotel "0" "Hotel A" "City A" (-3) 4]
  ∧ no_room_overbooked (run calls start).
Proof.
  split; [reflexivity|].
  apply (available_rooms_never_negative
           [CreateHotel "Hotel A" "City A" 5;
            GetHotel "0";
            HotelModifyInfo 1 None None (Some (-3));
            ReserveRoom 0;
            CancelRoom 1]).
  repeat constructor; simpl; lia.
Defined.

Section StoredIds.
Context {A : Type} (key : A → string).
Implicit Types (l : list A) (n : nat).

Lemma fmap_update_first (matches : A → bool) (update : A → A) l :
  (∀ x, matches x = true → key (update x) = key x) →
  key <$> update_first matches update l = key <$> l.
Proof.
  intros Hkey. induction l as [|x l IH]; [done|]. cbn [update_first].
  destruct (matches x) eqn:Hx; rewrite !fmap_cons;
    [by rewrite Hkey | by rewrite IH].
Qed.

Lemma fmap_filter_sublist (P : A → Prop) `{∀ x, Decision (P x)} l :
  (key <$> filter P l) `sublist_of` (key <$> l).
Proof.
  induction l as [|x l IH]; [constructor|].
  rewrite filter_cons. destruct (decide (P x)); rewrite !fmap_cons.
  - by apply sublist_skip.
  - by apply sublist_cons.
Qed.

Lemma ids_ok_sublist n n' (new old : list string) :
  new `sublist_of` old → (n ≤ n')%nat → ids_ok n old → ids_ok n' new.
Proof.
  intros Hsub Hle [Hdup Hissued]. split.
  - by eapply sublist_NoDup.
  - intros k Hk. eapply issued_mono; [done|].
    eapply Hissued, elem_of_sublist; eauto.
Qed.

Lemma ids_ok_snoc n n' (old : list string) :
  (n < n')%nat → ids_ok n old → ids_ok n' (old ++ [pretty n]).
Proof.
  intros Hlt [Hdup Hissued]. split.
  - apply NoDup_app. split; [done|]. split; [|apply NoDup_singleton].
    intros k Hk Hin. apply list_elem_of_singleton in Hin.
    by apply (issued_not_next n k (Hissued k Hk)).
  - intros k Hk. apply elem_of_app in Hk as [Hk|Hk].
    + eapply issued_mono; [|eauto]. lia.
    + apply list_elem_of_singleton in Hk as ->. exists n. split; [lia|done].
Qed.

Lemma ids_ok_elements n l :
  ids_ok n (key <$> l)
  ↔ NoDup (key <$> l) ∧ ∀ r, r ∈ l → issued n (key r).
Proof.
  unfold ids_ok. split; intros [Hdup Hissued]; (split; [done|]).
  - intros r Hr. apply Hissued, list_elem_of_fmap. by exists r.
  - intros k Hk. apply list_elem_of_fmap in Hk as (r & -> & Hr). auto.
Qed.

End StoredIds.

Lemma stored_ids_unique_iff (w : World) :
  stored_ids_unique w
  ↔ ids_ok (uuid_drawn w) (hotel_id <$> hotels_json w)
    ∧ ids_ok (uuid_drawn w) (customer_id <$> customers_json w)
    ∧ ids_ok (uuid_drawn w) (reservation_id <$> reservations_json w).
Proof.
  rewrite !ids_ok_elements. split.
  - intros [H1 H2 H3 H4 H5 H6]. done.
  - intros ([H1 H4] & [H2 H5] & [H3 H6]). by split.
Qed.

(** Each method keeps the stored ids unique. *)
Lemma stored_ids_unique_room_write (ident : string) (v : Z) (w : World) :
  stored_ids_unique w →
  stored_ids_unique
    (save_data HOTELS_FILE
       (update_first (λ x, bool_decide (hotel_id x = ident))
                     (set_available_rooms v) (hotels_json w)) w).
Proof.
  rewrite !stored_ids_unique_iff. simpl. intros (Hh & Hc & Hr).
  by rewrite fmap_update_first.
Qed.

Lemma stored_ids_unique_reserve_room (h : Hotel) (w : World) :
  stored_ids_unique w → stored_ids_unique (Hotel.reserve_room h w).2.
Proof.
  destruct (reserve_room_effect h w) as [[_ ->]|[_ ->]]; [done|].
  apply stored_ids_unique_room_write.
Qed.

Lemma stored_ids_unique_cancel_room (h : Hotel) (w : World) :
  stored_ids_unique w → stored_ids_unique (Hotel.cancel_room h w).2.
Proof.
  destruct (cancel_room_effect h w) as [[_ ->]|[_ ->]]; [done|].
  apply stored_ids_unique_room_write.
Qed.

Lemma stored_ids_unique_step (s : Session) (c : call) :
  stored_ids_unique (world s) → stored_ids_unique (world (step s c)).
Proof.
  destruct s as [w objects customers].
  cbn [world hotel_objects customer_objects]. intros Hw.
  pose proof Hw as Hparts. rewrite stored_ids_unique_iff in Hparts.
  destruct Hparts as (Hh & Hc & Hr).
  destruct c; cbn [step world hotel_objects customer_objects].
  - (* create_hotel *)
    unfold Hotel.create_hotel, load_data. simpl.
    rewrite stored_ids_unique_iff. simpl. rewrite fmap_app. simpl.
    split; [|split].
    + apply ids_ok_snoc; [lia | done].
    + eapply ids_ok_sublist; [done | | done]; lia.
    + eapply ids_ok_sublist; [done | | done]; lia.
  - (* delete_hotel *)
    unfold Hotel.delete_hotel, load_data. simpl. case_decide; [done|].
    rewrite stored_ids_unique_iff. simpl. split; [|done].
    eapply ids_ok_sublist; [apply fmap_filter_sublist | | done]; lia.
  - (* get_hotel *)
    by destruct (Hotel.get_hotel hotel_id' w).
  - (* Hotel.modify_info *)
    destruct (objects !! self) as [h|]; [|done].
    pose proof (modify_info_effect h name' location' total_rooms' w) as Heff.
    cbv zeta in Heff.
    set (h' := (Hotel.modify_info h name' location' total_rooms' w).1) in Heff.
    clearbody h'. destruct Heff as (-> & Hid & _). simpl.
    rewrite stored_ids_unique_iff. simpl. rewrite fmap_update_first; [done|].
    intros x Hx. apply bool_decide_eq_true in Hx. congruence.
  - (* reserve_room *)
    destruct (objects !! self) as [h|]; [|done].
    pose proof (stored_ids_unique_reserve_room h w Hw) as Hafter.
    by destruct (Hotel.reserve_room h w) as [[b h'] w'].
  - (* cancel_room *)
    destruct (objects !! self) as [h|]; [|done].
    pose proof (stored_ids_unique_cancel_room h w Hw) as Hafter.
    by destruct (Hotel.cancel_room h w) as [[b h'] w'].
  - (* create_customer *)
    unfold Customer.create_customer, load_data. simpl.
    rewrite stored_ids_unique_iff. simpl. rewrite fmap_app. simpl.
    split; [|split].
    + eapply ids_ok_sublist; [done | | done]; lia.
    + apply ids_ok_snoc; [lia | done].
    + eapply ids_ok_sublist; [done | | done]; lia.
  - (* delete_customer *)
    unfold Customer.delete_customer, load_data. simpl. case_decide; [done|].
    rewrite stored_ids_unique_iff. simpl. split; [done|]. split; [|done].
    eapply ids_ok_sublist; [apply fmap_filter_sublist | | done]; lia.
  - (* get_customer *)
    by destruct (Customer.get_customer customer_id' w).
  - (* Customer.modify_info *)
    destruct (customers !! self) as [customer|]; [|done].
    unfold Customer.modify_info, load_data. simpl.
    rewrite stored_ids_unique_iff. simpl. rewrite fmap_update_first; [done|].
    intros x Hx. by apply bool_decide_eq_true in Hx.
  - (* create_reservation *)
    set (s := mkSession w objects customers).
    destruct (Reservation.create_reservation (resolve s customer_instance)
                (resolve s hotel_instance) now w)
      as [[result hotel_after] w'] eqn:Hcall.
    cbn [world]. revert Hcall.
    destruct (resolve s customer_instance) as [| | | |customer|];
      destruct (resolve s hotel_instance) as [| | |h0| |]; simpl;
      try (by intros [= _ _ <-]).
    pose proof (stored_ids_unique_reserve_room h0 w Hw) as Hafter.
    assert (Hdrawn : uuid_drawn (Hotel.reserve_room h0 w).2 = uuid_drawn w).
    { by destruct (reserve_room_effect h0 w) as [[_ ->]|[_ ->]]. }
    assert (Hres : reservations_json (Hotel.reserve_room h0 w).2
                   = reservations_json w)
      by apply reserve_room_reservations.
    destruct (Hotel.reserve_room h0 w) as [[[] h'] w1]; simpl in *;
      intros [= _ _ <-]; [|done].
    rewrite stored_ids_unique_iff in Hafter.
    destruct Hafter as (Hh1 & Hc1 & Hr1).
    rewrite stored_ids_unique_iff. simpl. rewrite fmap_app. simpl.
    split; [|split].
    + eapply ids_ok_sublist; [done | | done]; lia.
    + eapply ids_ok_sublist; [done | | done]; lia.
    + apply ids_ok_snoc; [lia | done].
  - (* cancel_reservation *)
    unfold Reservation.cancel_reservation, load_data. simpl.
    destruct (first_match _ (reservations_json w)) as [r|]; simpl; [|done].
    set (w1 := match Hotel.get_hotel (reservation_hotel_id r) w with
               | Some hotel => (Hotel.cancel_room hotel w).2
               | None => w
               end).
    assert (Hafter : stored_ids_unique w1
                     ∧ reservations_json w1 = reservations_json w
                     ∧ uuid_drawn w1 = uuid_drawn w).
    { subst w1. destruct (Hotel.get_hotel _ w) as [hotel|]; [|done].
      split; [by apply stored_ids_unique_cancel_room|].
      split; [apply cancel_room_reservations|].
      by destruct (cancel_room_effect hotel w) as [[_ ->]|[_ ->]]. }
    clearbody w1. destruct Hafter as (Hafter & Hres & Hdrawn).
    rewrite stored_ids_unique_iff in Hafter.
    destruct Hafter as (Hh1 & Hc1 & Hr1).
    rewrite stored_ids_unique_iff. simpl. split; [done|]. split; [done|].
    rewrite Hres, Hdrawn in Hr1.
    eapply ids_ok_sublist; [apply fmap_filter_sublist | | done]; lia.
Qed.

(** X18.  Started on an empty data directory, after every sequence of
    calls no collection stores two records under one id, and every stored
    id is one that [uuid4] returned: the update loops, which stop at the
    first record that matches, reach the only one. *)
Theorem stored_ids_stay_unique (calls : list call) :
  stored_ids_unique (world (run calls start))
  ∧ ∀ ident h,
      Hotel.get_hotel ident (world (run calls start)) = Some h →
      ∀ x, x ∈ hotels_json (world (run calls start)) →
           hotel_id x = ident → x = h.
Proof.
  assert (Hunique : stored_ids_unique (world (run calls start))).
  { induction calls as [|c calls IH] using rev_ind.
    - split; simpl; try constructor; intros r Hr; inversion Hr.
    - rewrite run_snoc. by apply stored_ids_unique_step. }
  split; [done|].
  intros ident h Hget x Hx Hid.
  unfold Hotel.get_hotel, load_data in Hget. simpl in Hget.
  apply first_match_Some in Hget as [Hh Hhid].
  apply bool_decide_eq_true in Hhid.
  pose proof (hotel_ids_unique _ Hunique) as Hdup.
  apply list_elem_of_lookup in Hx as [i Hi].
  apply list_elem_of_lookup in Hh as [j Hj].
  assert (i = j).
  { eapply NoDup_lookup; [exact Hdup| |]; rewrite list_lookup_fmap.
    - by rewrite Hi.
    - rewrite Hj. simpl. congruence. }
  subst j. congruence.
Qed.
